(** * Verification of the asynchronous note pipeline of my-design-platform

    Shallow embedding of
    - [src/mcp_platform/jobs/queue.py]  ([Job], [RedisJobQueue.enqueue],
      [RedisJobQueue.dequeue]),
    - [src/mcp_platform/jobs/worker.py] ([process_job], [worker]),
    - the module globals of [src/mcp_platform/server.py] that the worker
      touches ([notes], [redis_conn], [request_context]) and the [add-note]
      branch of [handle_call_tool], which notifies through the same
      [request_context] test.

    The queue serialises jobs with [json.dumps] / [json.loads]; these are
    modelled after CPython's C accelerator ([Modules/_json.c]:
    [encoder_listencode_obj], [ascii_escape_unicode], [scanstring_unicode],
    [scan_once_unicode], [_match_number_unicode]) because the round trip of
    the queue depends on them.  A Python [str] is a list of code points.
    Floats are kept abstract (class [PyFloat]): their [repr] and [float()]
    are CPython's.

    The Redis server is one keyspace mapping keys to lists or hashes; the
    commands used by the code ([RPUSH], [LPOP], [HSET]) follow Redis:
    an empty list is deleted, a command on a key of the wrong type fails
    with a [WRONGTYPE] error. *)

From Stdlib Require Import ZArith NArith Lia.
From Stdlib Require Import Ascii String.
From Stdlib Require Import Decimal DecimalN DecimalPos DecimalFacts.
From stdpp Require Import base gmap list strings.

Open Scope N_scope.

(** Python [str]: a sequence of code points. *)
Abbreviation pystr := (list N).

(** String literals of the source, as code points. *)
Definition lit (s : string) : pystr :=
  map (fun a => N_of_ascii a) (list_ascii_of_string s).

(** ** Floats *)

(** The float operations the pipeline relies on, as CPython implements
    them.  [flt_repr] is [float.__repr__], [flt_of_text] is [float()] on a
    string, [flt_nonfinite_text] is what [json]'s [floatstr] writes for a
    non-finite float ([NaN], [Infinity], [-Infinity]); [flt_eqb] and
    [flt_eq_int] are Python's [==] on floats and between a float and an
    [int] (used when a float is a dict key). *)
Class PyFloat := {
  flt : Type;
  flt_repr : flt -> pystr;
  flt_finite : flt -> bool;
  flt_nonfinite_text : flt -> pystr;
  flt_of_text : pystr -> flt;
  flt_eqb : flt -> flt -> bool;
  flt_eq_int : flt -> Z -> bool
}.

Section Pipeline.
Context {F : PyFloat}.

(** ** Python values

    The values a [Job] carries: what [json.loads] produces and what
    [json.dumps] accepts.  Dict keys are [str] ([Job.data: dict[str, Any]]);
    a dict is its item list in insertion order. *)
Inductive pyval :=
| PNone
| PBool (b : bool)
| PInt (z : Z)
| PFloat (f : flt)
| PStr (s : pystr)
| PList (l : list pyval)
| PDict (kv : list (pystr * pyval)).

(** [d[k] = v] on a dict with [str] keys: the value of an existing key is
    replaced in place, a new key is appended. *)
Fixpoint dict_set {A} (d : list (pystr * A)) (k : pystr) (v : A)
    : list (pystr * A) :=
  match d with
  | [] => [(k, v)]
  | (k', v') :: d' =>
      if decide (k' = k) then (k', v) :: d' else (k', v') :: dict_set d' k v
  end.

Fixpoint dict_get {A} (d : list (pystr * A)) (k : pystr) : option A :=
  match d with
  | [] => None
  | (k', v') :: d' => if decide (k' = k) then Some v' else dict_get d' k
  end.

(** ** [json.dumps] *)

(** Characters used by the encoder and decoder. *)
Definition c_quote : N := 34.
Definition c_bslash : N := 92.

(** [Py_hexdigits]: lower-case hexadecimal digits. *)
Definition hex_digit (d : N) : N := if d <? 10 then 48 + d else 87 + d.

(** The four hex digits written after [\u]. *)
Definition hex4 (c : N) : pystr :=
  [hex_digit (N.land (N.shiftr c 12) 15); hex_digit (N.land (N.shiftr c 8) 15);
   hex_digit (N.land (N.shiftr c 4) 15); hex_digit (N.land c 15)].

(** [Py_UNICODE_HIGH_SURROGATE] and [Py_UNICODE_LOW_SURROGATE]. *)
Definition high_surrogate (c : N) : N := 55296 - 64 + N.shiftr c 10.
Definition low_surrogate (c : N) : N := 56320 + N.land c 1023.

(** [ascii_escape_unichar]. *)
Definition escape_unichar (c : N) : pystr :=
  if c =? c_bslash then [92; 92]
  else if c =? c_quote then [92; 34]
  else if c =? 8 then [92; 98]
  else if c =? 12 then [92; 102]
  else if c =? 10 then [92; 110]
  else if c =? 13 then [92; 114]
  else if c =? 9 then [92; 116]
  else if 65536 <=? c then
    [92; 117] ++ hex4 (high_surrogate c) ++ [92; 117] ++ hex4 (low_surrogate c)
  else [92; 117] ++ hex4 c.

(** [S_CHAR]: printable ASCII other than backslash and quote is copied. *)
Definition s_char (c : N) : bool :=
  (32 <=? c) && (c <=? 126) && negb (c =? c_bslash) && negb (c =? c_quote).

Definition escape_char (c : N) : pystr :=
  if s_char c then [c] else escape_unichar c.

(** [ascii_escape_unicode] ([ensure_ascii=True], the default). *)
Definition encode_str (s : pystr) : pystr :=
  [c_quote] ++ concat (map escape_char s) ++ [c_quote].

(** Decimal digits of a [Decimal.uint]. *)
Fixpoint uint_chars (d : Decimal.uint) : pystr :=
  match d with
  | Decimal.Nil => []
  | Decimal.D0 d => 48 :: uint_chars d
  | Decimal.D1 d => 49 :: uint_chars d
  | Decimal.D2 d => 50 :: uint_chars d
  | Decimal.D3 d => 51 :: uint_chars d
  | Decimal.D4 d => 52 :: uint_chars d
  | Decimal.D5 d => 53 :: uint_chars d
  | Decimal.D6 d => 54 :: uint_chars d
  | Decimal.D7 d => 55 :: uint_chars d
  | Decimal.D8 d => 56 :: uint_chars d
  | Decimal.D9 d => 57 :: uint_chars d
  end.

(** [int.__repr__]. *)
Definition int_repr (z : Z) : pystr :=
  if (z <? 0)%Z then 45 :: uint_chars (N.to_uint (Z.abs_N z))
  else uint_chars (N.to_uint (Z.to_N z)).

(** [floatstr] of the encoder ([allow_nan=True]). *)
Definition float_text (f : flt) : pystr :=
  if flt_finite f then flt_repr f else flt_nonfinite_text f.

(** [encoder_listencode_obj] with the default separators [", "] and
    [": "]. *)
Fixpoint dumps (v : pyval) : pystr :=
  match v with
  | PNone => lit "null"
  | PBool true => lit "true"
  | PBool false => lit "false"
  | PInt z => int_repr z
  | PFloat f => float_text f
  | PStr s => encode_str s
  | PList [] => lit "[]"
  | PList (x :: xs) =>
      [91] ++ dumps x ++
      (fix items (l : list pyval) : pystr :=
         match l with
         | [] => [93]
         | y :: ys => [44; 32] ++ dumps y ++ items ys
         end) xs
  | PDict [] => lit "{}"
  | PDict ((k, x) :: kvs) =>
      [123] ++ encode_str k ++ [58; 32] ++ dumps x ++
      (fix items (l : list (pystr * pyval)) : pystr :=
         match l with
         | [] => [125]
         | (k', y) :: ys => [44; 32] ++ encode_str k' ++ [58; 32] ++ dumps y ++ items ys
         end) kvs
  end.

(** ** [json.loads] *)

(** [IS_WHITESPACE]. *)
Definition is_ws (c : N) : bool := (c =? 32) || (c =? 9) || (c =? 10) || (c =? 13).

Fixpoint skip_ws (s : pystr) : pystr :=
  match s with
  | c :: r => if is_ws c then skip_ws r else s
  | [] => []
  end.

Definition is_digit (c : N) : bool := (48 <=? c) && (c <=? 57).

(** One hex digit of a [\uXXXX] escape (either case). *)
Definition hex_val (c : N) : option N :=
  if (48 <=? c) && (c <=? 57) then Some (c - 48)
  else if (97 <=? c) && (c <=? 102) then Some (c - 97 + 10)
  else if (65 <=? c) && (c <=? 70) then Some (c - 65 + 10)
  else None.

(** The loop [c <<= 4; c |= digit] over four digits. *)
Definition decode_hex4 (a b c d : N) : option N :=
  match hex_val a, hex_val b, hex_val c, hex_val d with
  | Some x1, Some x2, Some x3, Some x4 =>
      Some (N.lor (N.shiftl (N.lor (N.shiftl (N.lor (N.shiftl x1 4) x2) 4) x3) 4) x4)
  | _, _, _, _ => None
  end.

Definition is_high_surrogate (c : N) : bool := (55296 <=? c) && (c <=? 56319).
Definition is_low_surrogate (c : N) : bool := (56320 <=? c) && (c <=? 57343).

(** [Py_UNICODE_JOIN_SURROGATES]. *)
Definition join_surrogates (hi lo : N) : N :=
  N.lor (N.shiftl (N.land hi 1023) 10) (N.land lo 1023) + 65536.

(** The one-character escapes: quote, backslash, slash, b, f, n, r, t. *)
Definition simple_escape (e : N) : option N :=
  if e =? 34 then Some 34
  else if e =? 92 then Some 92
  else if e =? 47 then Some 47
  else if e =? 98 then Some 8
  else if e =? 102 then Some 12
  else if e =? 110 then Some 10
  else if e =? 114 then Some 13
  else if e =? 116 then Some 9
  else None.

(** [scanstring_unicode] with [strict=True], started after the opening
    quote; [acc] holds the decoded characters in reverse.  The length
    tests of the C code ([end >= len], [end + 6 < len]) become the
    patterns that require a character after the escape. *)
Fixpoint scan_str (s : pystr) (acc : pystr) : option (pystr * pystr) :=
  match s with
  | [] => None
  | c :: rest =>
      if c =? c_quote then Some (rev acc, rest)
      else if c =? c_bslash then
        match rest with
        | [] => None
        | e :: rest' =>
            if e =? 117 then
              match rest' with
              | h1 :: h2 :: h3 :: h4 :: rest'' =>
                  match decode_hex4 h1 h2 h3 h4 with
                  | None => None
                  | Some u =>
                      match rest'' with
                      | [] => None
                      | _ :: _ =>
                          if is_high_surrogate u then
                            match rest'' with
                            | b :: u' :: g1 :: g2 :: g3 :: g4 :: ((_ :: _) as rest3) =>
                                if (b =? c_bslash) && (u' =? 117) then
                                  match decode_hex4 g1 g2 g3 g4 with
                                  | None => None
                                  | Some u2 =>
                                      if is_low_surrogate u2
                                      then scan_str rest3 (join_surrogates u u2 :: acc)
                                      else scan_str rest'' (u :: acc)
                                  end
                                else scan_str rest'' (u :: acc)
                            | _ => scan_str rest'' (u :: acc)
                            end
                          else scan_str rest'' (u :: acc)
                      end
                  end
              | _ => None
              end
            else
              match simple_escape e with
              | Some c' => scan_str rest' (c' :: acc)
              | None => None
              end
        end
      else if c <=? 31 then None
      else scan_str rest (c :: acc)
  end.

(** Whether the input starts with character [c], resp. with [p]. *)
Definition head_is (c : N) (s : pystr) : bool :=
  match s with
  | x :: _ => x =? c
  | [] => false
  end.

Fixpoint starts_with (p s : pystr) : bool :=
  match p, s with
  | [], _ => true
  | x :: p', y :: s' => (x =? y) && starts_with p' s'
  | _ :: _, [] => false
  end.

(** Maximal run of ASCII digits. *)
Fixpoint span_digits (s : pystr) : pystr * pystr :=
  match s with
  | c :: r =>
      if is_digit c then let '(ds, r') := span_digits r in (c :: ds, r')
      else ([], s)
  | [] => ([], [])
  end.

(** [_match_number_unicode], phase by phase.  The integer part: [0] or
    a digit 1-9 followed by digits. *)
Definition num_int_part (s : pystr) : option (pystr * pystr) :=
  match s with
  | d :: t =>
      if (49 <=? d) && (d <=? 57) then let '(ds, t') := span_digits t in Some (d :: ds, t')
      else if d =? 48 then Some ([48], t)
      else None
  | [] => None
  end.

(** The fraction: a dot followed by at least one digit (a dot not
    followed by a digit ends the number before the dot). *)
Definition num_frac_part (s : pystr) : pystr * pystr :=
  match s with
  | p :: d :: t =>
      if (p =? 46) && is_digit d then let '(ds, t') := span_digits t in (p :: d :: ds, t')
      else ([], s)
  | _ => ([], s)
  end.

(** The exponent: [e] or [E], an optional sign, at least one digit
    (otherwise the number ends before the [e]). *)
Definition num_exp_part (s : pystr) : pystr * pystr :=
  match s with
  | e :: t =>
      if (e =? 101) || (e =? 69) then
        let '(esg, t') :=
          match t with
          | sg :: t'' => if (sg =? 45) || (sg =? 43) then ([sg], t'') else ([], t)
          | [] => ([], t)
          end in
        match span_digits t' with
        | ([], _) => ([], s)
        | (ds, t'') => (e :: esg ++ ds, t'')
        end
      else ([], s)
  | [] => ([], s)
  end.

(** [_match_number_unicode]: an optional minus sign, then the three
    parts.  Returns the token, whether it has a fraction or an exponent
    (a float rather than an int), and the rest of the input. *)
Definition match_number (s : pystr) : option (pystr * bool * pystr) :=
  let '(sgn, s1) := if head_is 45 s then ([45], tail s) else ([], s) in
  match num_int_part s1 with
  | None => None
  | Some (ip, t1) =>
      let '(frac, t2) := num_frac_part t1 in
      let '(expo, t3) := num_exp_part t2 in
      Some (sgn ++ ip ++ frac ++ expo,
            negb (bool_decide (frac = [])) || negb (bool_decide (expo = [])), t3)
  end.

(** [PyLong_FromString] on an integer token. *)
Definition digits_val (ds : pystr) : N :=
  fold_left (fun acc d => 10 * acc + (d - 48)) ds 0.

Definition int_of_token (t : pystr) : Z :=
  match t with
  | 45 :: ds => (- Z.of_N (digits_val ds))%Z
  | _ => Z.of_N (digits_val t)
  end.

(** A JSON object is built with [PyDict_SetItem], key after key. *)
Definition dict_of_pairs (kvs : list (pystr * pyval)) : list (pystr * pyval) :=
  fold_left (fun d '(k, v) => dict_set d k v) kvs [].

(** [scan_once_unicode], [_parse_array_unicode] and
    [_parse_object_unicode].  The fuel bounds the nesting; [loads] gives
    [2 * length + 1], which two nested calls never exhaust since every
    second call consumes a character. *)
Fixpoint scan_once (fuel : nat) (s : pystr) : option (pyval * pystr) :=
  match fuel with
  | O => None
  | S fuel' =>
      match s with
      | [] => None
      | c :: rest =>
          if c =? c_quote then
            match scan_str rest [] with
            | Some (k, r) => Some (PStr k, r)
            | None => None
            end
          else if c =? 123 then
            let s' := skip_ws rest in
            if head_is 125 s' then Some (PDict [], tail s')
            else
              match parse_object_items fuel' s' with
              | Some (kvs, r) => Some (PDict (dict_of_pairs kvs), r)
              | None => None
              end
          else if c =? 91 then
            let s' := skip_ws rest in
            if head_is 93 s' then Some (PList [], tail s')
            else
              match parse_array_items fuel' s' with
              | Some (vs, r) => Some (PList vs, r)
              | None => None
              end
          else if starts_with (lit "null") s then Some (PNone, drop 4 s)
          else if starts_with (lit "true") s then Some (PBool true, drop 4 s)
          else if starts_with (lit "false") s then Some (PBool false, drop 5 s)
          else if starts_with (lit "NaN") s then
            Some (PFloat (flt_of_text (lit "NaN")), drop 3 s)
          else if starts_with (lit "Infinity") s then
            Some (PFloat (flt_of_text (lit "Infinity")), drop 8 s)
          else if starts_with (lit "-Infinity") s then
            Some (PFloat (flt_of_text (lit "-Infinity")), drop 9 s)
          else
            match match_number s with
            | Some (tok, true, r) => Some (PFloat (flt_of_text tok), r)
            | Some (tok, false, r) => Some (PInt (int_of_token tok), r)
            | None => None
            end
      end
  end
with parse_array_items (fuel : nat) (s : pystr) : option (list pyval * pystr) :=
  match fuel with
  | O => None
  | S fuel' =>
      match scan_once fuel' s with
      | None => None
      | Some (v, r) =>
          let r' := skip_ws r in
          if head_is 93 r' then Some ([v], tail r')
          else if head_is 44 r' then
            match parse_array_items fuel' (skip_ws (tail r')) with
            | Some (vs, r'') => Some (v :: vs, r'')
            | None => None
            end
          else None
      end
  end
with parse_object_items (fuel : nat) (s : pystr)
    : option (list (pystr * pyval) * pystr) :=
  match fuel with
  | O => None
  | S fuel' =>
      if head_is 34 s then
        match scan_str (tail s) [] with
        | None => None
        | Some (k, r) =>
            let r1 := skip_ws r in
            if head_is 58 r1 then
              match scan_once fuel' (skip_ws (tail r1)) with
              | None => None
              | Some (v, r2) =>
                  let r3 := skip_ws r2 in
                  if head_is 125 r3 then Some ([(k, v)], tail r3)
                  else if head_is 44 r3 then
                    match parse_object_items fuel' (skip_ws (tail r3)) with
                    | Some (kvs, r4) => Some ((k, v) :: kvs, r4)
                    | None => None
                    end
                  else None
              end
            else None
        end
      else None
  end.

(** [json.loads] on a [str] ([JSONDecoder.decode]): a leading BOM is
    refused, surrounding whitespace is skipped, nothing may follow the
    value.  [None] is a [JSONDecodeError]. *)
Definition loads (s : pystr) : option pyval :=
  if head_is 65279 s then None
  else
    match scan_once (2 * length s + 1) (skip_ws s) with
    | Some (v, r) => match skip_ws r with [] => Some v | _ :: _ => None end
    | None => None
    end.

(** ** Program state *)

(** [server.redis_conn]: [server.py] never assigns it, so on a fresh
    import the attribute does not exist; the tests assign [None] or a
    connection (to the same Redis server as the worker's). *)
Inductive conn_attr := ConnUnset | ConnNone | ConnSet.

(** A connected client session, by identity. *)
Definition session := nat.

(** A Redis value: a list or a hash. *)
Inductive rvalue :=
| RList (l : list pystr)
| RHash (h : list (pystr * pystr)).

(** The part of the process and of Redis the pipeline reads and writes:
    the module globals of [server.py] ([notes], [redis_conn], a
    module-level [request_context] if one was ever assigned), the
    [request_context] of the MCP [Server] instance [server.server] (the
    session of the request being served, if any), the Redis keyspace, and
    the [send_resource_list_changed] calls made so far (newest first). *)
Record world := mkWorld {
  notes : list (pyval * pyval);
  redis_conn : conn_attr;
  module_request_context : option session;
  server_request_context : option session;
  store : gmap pystr rvalue;
  sent : list session
}.

Definition set_notes (w : world) (n : list (pyval * pyval)) : world :=
  mkWorld n (redis_conn w) (module_request_context w) (server_request_context w)
    (store w) (sent w).
Definition set_store (w : world) (st : gmap pystr rvalue) : world :=
  mkWorld (notes w) (redis_conn w) (module_request_context w)
    (server_request_context w) st (sent w).
Definition set_sent (w : world) (l : list session) : world :=
  mkWorld (notes w) (redis_conn w) (module_request_context w)
    (server_request_context w) (store w) l.

(** Exceptions the pipeline can raise. *)
Inductive exn :=
| KeyError | TypeError | AttributeError | ValueError
| DataError          (* redis-py refuses to encode an argument *)
| ResponseError      (* Redis WRONGTYPE reply *)
| JSONDecodeError.

Inductive result (A : Type) := Ok (a : A) | Raise (e : exn).
Arguments Ok {A} a.
Arguments Raise {A} e.

(** State and exception monad: one step of the coroutine between two
    suspension points runs without interference (cooperative scheduling). *)
Definition M (A : Type) : Type := world -> result A * world.

#[global] Instance M_ret : MRet M := fun A a w => (Ok a, w).
#[global] Instance M_bind : MBind M := fun A B k m w =>
  match m w with
  | (Ok a, w') => k a w'
  | (Raise e, w') => (Raise e, w')
  end.

Definition raise {A} (e : exn) : M A := fun w => (Raise e, w).
Definition gets {A} (f : world -> A) : M A := fun w => (Ok (f w), w).
Definition modify (f : world -> world) : M unit := fun w => (Ok tt, f w).
Definition skip : M unit := mret tt.

(** ** Redis commands *)

(** [RPUSH key v]: returns the new length. *)
Definition rpush (key v : pystr) : M N := fun w =>
  match store w !! key with
  | None => (Ok 1, set_store w (<[key := RList [v]]> (store w)))
  | Some (RList l) =>
      (Ok (N.of_nat (length l) + 1), set_store w (<[key := RList (l ++ [v])]> (store w)))
  | Some (RHash _) => (Raise ResponseError, w)
  end.

(** [LPOP key]: nil on a missing key; a list emptied by the pop is
    removed. *)
Definition lpop (key : pystr) : M (option pystr) := fun w =>
  match store w !! key with
  | None => (Ok None, w)
  | Some (RList []) => (Ok None, w)
  | Some (RList [x]) => (Ok (Some x), set_store w (delete key (store w)))
  | Some (RList (x :: l)) => (Ok (Some x), set_store w (<[key := RList l]> (store w)))
  | Some (RHash _) => (Raise ResponseError, w)
  end.

(** [HSET key field value]: returns the number of fields added. *)
Definition hset (key field value : pystr) : M N := fun w =>
  match store w !! key with
  | None => (Ok 1, set_store w (<[key := RHash [(field, value)]]> (store w)))
  | Some (RHash h) =>
      (Ok (if dict_get h field then 0 else 1),
       set_store w (<[key := RHash (dict_set h field value)]> (store w)))
  | Some (RList _) => (Raise ResponseError, w)
  end.

(** redis-py's [Encoder.encode]: [str] is sent as is, [int] and [float]
    as their [repr]; [bool], [None] and containers raise [DataError]. *)
Definition redis_encode (v : pyval) : option pystr :=
  match v with
  | PStr s => Some s
  | PInt z => Some (int_repr z)
  | PFloat f => Some (flt_repr f)
  | _ => None
  end.

(** [redis.hset(name, key, value)]. *)
Definition redis_hset (name : pystr) (k v : pyval) : M N :=
  match redis_encode k, redis_encode v with
  | Some k', Some v' => hset name k' v'
  | _, _ => raise DataError
  end.

(** ** Python operations used by the worker *)

(** [container[k]] with a [str] subscript. *)
Definition getitem_str (container : pyval) (k : pystr) : M pyval :=
  match container with
  | PDict kv =>
      match dict_get kv k with
      | Some v => mret v
      | None => raise KeyError
      end
  | _ => raise TypeError
  end.

(** Python's [==] between two values of which the first is hashable. *)
Definition py_eq (a b : pyval) : bool :=
  match a, b with
  | PNone, PNone => true
  | PStr s, PStr t => bool_decide (s = t)
  | PBool x, PBool y => Bool.eqb x y
  | PBool x, PInt z | PInt z, PBool x => Z.eqb z (if x then 1 else 0)%Z
  | PInt x, PInt y => Z.eqb x y
  | PFloat f, PFloat g => flt_eqb f g
  | PFloat f, PInt z | PInt z, PFloat f => flt_eq_int f z
  | PFloat f, PBool x | PBool x, PFloat f => flt_eq_int f (if x then 1 else 0)%Z
  | _, _ => false
  end.

Definition hashable (v : pyval) : bool :=
  match v with
  | PList _ | PDict _ => false
  | _ => true
  end.

(** [d[k] = v] on [server.notes] (any hashable key). *)
Fixpoint notes_set (d : list (pyval * pyval)) (k v : pyval) : list (pyval * pyval) :=
  match d with
  | [] => [(k, v)]
  | (k', v') :: d' => if py_eq k' k then (k', v) :: d' else (k', v') :: notes_set d' k v
  end.

Fixpoint notes_get (d : list (pyval * pyval)) (k : pyval) : option pyval :=
  match d with
  | [] => None
  | (k', v') :: d' => if py_eq k' k then Some v' else notes_get d' k
  end.

(** [server.notes[k] = v]. *)
Definition setitem_notes (k v : pyval) : M unit :=
  if hashable k then modify (fun w => set_notes w (notes_set (notes w) k v))
  else raise TypeError.

(** [server.redis_conn is not None]: reading the attribute raises
    [AttributeError] when it was never assigned. *)
Definition redis_conn_is_set : M bool := fun w =>
  match redis_conn w with
  | ConnUnset => (Raise AttributeError, w)
  | ConnNone => (Ok false, w)
  | ConnSet => (Ok true, w)
  end.

(** [session.send_resource_list_changed()]. *)
Definition send_resource_list_changed (s : session) : M unit :=
  modify (fun w => set_sent w (s :: sent w)).

(** Python truthiness, used by [handle_call_tool]. *)
Definition truthy (v : pyval) : bool :=
  match v with
  | PNone => false
  | PBool b => b
  | PInt z => negb (Z.eqb z 0)
  | PFloat f => negb (flt_eq_int f 0)
  | PStr s => negb (bool_decide (s = []))
  | PList l => negb (bool_decide (l = []))
  | PDict kv => negb (bool_decide (kv = []))
  end.

(** ** [jobs/queue.py] *)

(** [@dataclass class Job: type: str; data: dict[str, Any]]; the dataclass
    does not check the annotations, so any value can fill a field. *)
Record Job := mkJob { job_type : pyval; job_data : pyval }.

(** [dataclasses.asdict] (a deep copy, the identity on these values). *)
Definition asdict (j : Job) : pyval :=
  PDict [(lit "type", job_type j); (lit "data", job_data j)].

(** [Job( **obj)]: [obj] must be a mapping whose keys are exactly the
    field names; otherwise [TypeError]. *)
Definition job_of_kwargs (obj : pyval) : option Job :=
  match obj with
  | PDict kv =>
      match dict_get kv (lit "type"), dict_get kv (lit "data") with
      | Some t, Some d =>
          if forallb (fun '(k, _) => bool_decide (k = lit "type") || bool_decide (k = lit "data")) kv
          then Some (mkJob t d) else None
      | _, _ => None
      end
  | _ => None
  end.

Record RedisJobQueue := mkQueue { queue_name : pystr }.

(** [RedisJobQueue.__init__(self, redis, name="jobs")]. *)
Definition default_queue_name : pystr := lit "jobs".

(** [json.dumps(asdict(job))]. *)
Definition encode_job (j : Job) : pystr := dumps (asdict j).

(** [Job( **json.loads(data))]. *)
Definition decode_job (data : pystr) : result Job :=
  match loads data with
  | None => Raise JSONDecodeError
  | Some obj =>
      match job_of_kwargs obj with
      | Some j => Ok j
      | None => Raise TypeError
      end
  end.

(** [RedisJobQueue.enqueue]. *)
Definition enqueue (q : RedisJobQueue) (j : Job) : M N :=
  rpush (queue_name q) (encode_job j).

(** [RedisJobQueue.dequeue]. *)
Definition dequeue (q : RedisJobQueue) : M (option Job) :=
  data ← lpop (queue_name q);
  match data with
  | None => mret None
  | Some d =>
      match decode_job d with
      | Ok j => mret (Some j)
      | Raise e => raise e
      end
  end.

(** ** [jobs/worker.py] *)

(** [process_job].  [server] there is the module [mcp_platform.server],
    so [getattr(server, "request_context", None)] reads a module
    attribute. *)
Definition process_job (job : Job) : M unit :=
  if py_eq (job_type job) (PStr (lit "add-note")) then
    note_name ← getitem_str (job_data job) (lit "name");
    content ← getitem_str (job_data job) (lit "content");
    setitem_notes note_name content;;
    conn ← redis_conn_is_set;
    (if (conn : bool) then redis_hset (lit "notes") note_name content;; skip else skip);;
    ctx ← gets module_request_context;
    match (ctx : option session) with
    | Some s => send_resource_list_changed s
    | None => skip
    end
  else skip.

(** What one pass of the [while True] body did. *)
Inductive iteration := Processed (j : Job) | Slept.

(** One pass of the loop of [worker(redis, poll_interval)]; the queue is
    [RedisJobQueue(redis)], with the default name.  A [Job] instance is
    always truthy; [asyncio.sleep] changes no state. *)
Definition worker_iter : M iteration :=
  job ← dequeue (mkQueue default_queue_name);
  match job with
  | Some j => process_job j;; mret (Processed j)
  | None => mret Slept
  end.

(** The first [n] passes of the loop (it has no exit of its own: only
    an exception or an external cancellation ends it). *)
Fixpoint worker (n : nat) : M unit :=
  match n with
  | O => mret tt
  | S n' => worker_iter;; worker n'
  end.

(** ** [server.py]: the synchronous [add-note] tool, where [server] is
    the MCP [Server] instance. *)
Definition handle_call_tool_add_note (arguments : list (pystr * pyval)) : M unit :=
  if bool_decide (arguments = []) then raise ValueError else
  let note_name := default PNone (dict_get arguments (lit "name")) in
  let content := default PNone (dict_get arguments (lit "content")) in
  if negb (truthy note_name) || negb (truthy content) then raise ValueError else
  setitem_notes note_name content;;
  ctx ← gets server_request_context;
  match ctx with
  | Some s => send_resource_list_changed s
  | None => mret tt
  end.

(** ** Inputs the properties are stated for *)

(** A Unicode scalar value (a code point that is not a surrogate). *)
Definition scalar (c : N) : bool :=
  (c <=? 1114111) && negb ((55296 <=? c) && (c <=? 57343)).

(** JSON-representable values: finite floats, strings of scalar values,
    and dicts with distinct [str] keys (as Python dicts have), at every
    depth. *)
Fixpoint json_ok (v : pyval) : bool :=
  match v with
  | PNone | PBool _ | PInt _ => true
  | PFloat f => flt_finite f
  | PStr s => forallb scalar s
  | PList l =>
      (fix go (l : list pyval) : bool :=
         match l with
         | [] => true
         | x :: xs => json_ok x && go xs
         end) l
  | PDict kv =>
      bool_decide (NoDup (map fst kv)) &&
      (fix go (l : list (pystr * pyval)) : bool :=
         match l with
         | [] => true
         | (k, x) :: r => forallb scalar k && json_ok x && go r
         end) kv
  end.

(** A job as a producer builds it: a [str] type tag and a JSON-representable
    [dict] of data. *)
Definition job_ok (j : Job) : bool :=
  match job_type j, job_data j with
  | PStr t, PDict _ => forallb scalar t && json_ok (job_data j)
  | _, _ => false
  end.

(** What CPython guarantees of the [repr] of a finite float: it is a
    complete JSON number token with a fraction or an exponent, and
    [float()] reads it back to the same float. *)
Definition float_repr_spec : Prop :=
  forall f, flt_finite f = true ->
    match_number (flt_repr f) = Some (flt_repr f, true, []) /\
    flt_of_text (flt_repr f) = f.

(** Test drivers: [n] calls of [enqueue], then [n] calls of [dequeue]. *)
Fixpoint enqueue_all (q : RedisJobQueue) (js : list Job) : M unit :=
  match js with
  | [] => skip
  | j :: js' => enqueue q j;; enqueue_all q js'
  end.

Fixpoint dequeue_n (q : RedisJobQueue) (n : nat) : M (list (option Job)) :=
  match n with
  | O => mret []
  | S n' =>
      x ← dequeue q;
      xs ← dequeue_n q n';
      mret ((x : option Job) :: xs)
  end.

(** [w'] differs from [w] at most in the Redis key [k]. *)
Definition same_except (k : pystr) (w w' : world) : Prop :=
  notes w' = notes w /\ redis_conn w' = redis_conn w /\
  module_request_context w' = module_request_context w /\
  server_request_context w' = server_request_context w /\
  sent w' = sent w /\
  forall k', k' <> k -> store w' !! k' = store w !! k'.

(** A computation that leaves the list stored at [k] in place. *)
Definition keeps_list {A} (k : pystr) (l : list pystr) (m : M A) : Prop :=
  forall w, store w !! k = Some (RList l) -> store (snd (m w)) !! k = Some (RList l).

(** The end of [process_job]: the notifier step. *)
Definition notify_step (w : world) : result unit * world :=
  match module_request_context w with
  | Some s => (Ok tt, set_sent w (s :: sent w))
  | None => (Ok tt, w)
  end.

(** The items of a non-empty list and of a non-empty dict after the
    first one, as [dumps] writes them, with the closing bracket. *)
Fixpoint dumps_items (l : list pyval) : pystr :=
  match l with
  | [] => [93]
  | y :: ys => [44; 32] ++ dumps y ++ dumps_items ys
  end.

Fixpoint dumps_dict_items (l : list (pystr * pyval)) : pystr :=
  match l with
  | [] => [125]
  | (k, y) :: ys => [44; 32] ++ encode_str k ++ [58; 32] ++ dumps y ++ dumps_dict_items ys
  end.

(** What can follow a value in the text [dumps] writes: the end of the
    text, a comma, or a closing bracket. *)
Definition stop_head (s : pystr) : bool :=
  match s with
  | [] => true
  | c :: _ => (c =? 44) || (c =? 93) || (c =? 125)
  end.

(** Nesting measure bounding the fuel [scan_once] needs. *)
Fixpoint vsize (v : pyval) : nat :=
  match v with
  | PList l => 1 + (fix go (l : list pyval) : nat :=
                      match l with [] => 0 | x :: xs => 2 + vsize x + go xs end) l
  | PDict kv => 1 + (fix go (l : list (pystr * pyval)) : nat :=
                       match l with [] => 0 | (_, x) :: xs => 2 + vsize x + go xs end) kv
  | _ => 0
  end%nat.

(** How a number token starts. *)
Definition number_head (s : pystr) : Prop :=
  exists c s', s = c :: s' /\
    (is_digit c = true \/ (c = 45 /\ exists d s'', s' = d :: s'' /\ is_digit d = true)).

(** What [scan_once] does on the text of a value. *)
Definition scans (v : pyval) : Prop :=
  forall fuel rest, (vsize v < fuel)%nat -> stop_head rest = true ->
    scan_once fuel (dumps v ++ rest) = Some (v, rest).

(** The keyspace with the list [l] stored at [k] (no key when [l] is
    empty, as Redis deletes empty lists). *)
Definition put_list (st : gmap pystr rvalue) (k : pystr) (l : list pystr) : gmap pystr rvalue :=
  match l with
  | [] => delete k st
  | _ :: _ => <[k := RList l]> st
  end.

End Pipeline.

#[global] Arguments Ok {A} a.
#[global] Arguments Raise {A} e.

(** * The rest of [server.py] *)

Section Server.
Context {F : PyFloat}.

(** [del d[k]] on [server.notes]: the entry whose key equals [k] goes. *)
Fixpoint notes_del (d : list (pyval * pyval)) (k : pyval) : list (pyval * pyval) :=
  match d with
  | [] => []
  | (k', v') :: d' => if py_eq k' k then d' else (k', v') :: notes_del d' k
  end.

(** [k in server.notes]. *)
Definition contains_notes (k : pyval) : M bool :=
  if hashable k then gets (fun w => if notes_get (notes w) k then true else false)
  else raise TypeError.

(** [del server.notes[k]]. *)
Definition delitem_notes (k : pyval) : M unit :=
  if hashable k then
    fun w => match notes_get (notes w) k with
             | Some _ => (Ok tt, set_notes w (notes_del (notes w) k))
             | None => (Raise KeyError, w)
             end
  else raise TypeError.

(** [server.notes[k]]. *)
Definition getitem_notes (k : pyval) : M pyval :=
  if hashable k then
    fun w => match notes_get (notes w) k with
             | Some v => (Ok v, w)
             | None => (Raise KeyError, w)
             end
  else raise TypeError.

(** [if getattr(server, "request_context", None):
    await server.request_context.session.send_resource_list_changed()]
    in [server.py], where [server] is the [Server] instance (inside a
    request handler its [request_context] is the request's session). *)
Definition notify_clients : M unit :=
  ctx ← gets server_request_context;
  match ctx with
  | Some s => send_resource_list_changed s
  | None => skip
  end.

(** The [TextContent] items [handle_call_tool] returns, by the values
    their f-strings format: [Added note '{note_name}' with content:
    {content}], [Queued note '{note_name}' for addition], [Deleted note
    '{note_name}']. *)
Inductive tool_result :=
| Added (note_name content : pyval)
| Queued (note_name : pyval)
| Deleted (note_name : pyval).

(** [handle_call_tool(name, arguments)]; [job_queue] is the module global
    of that name ([None] until [main] assigns [RedisJobQueue(redis)]).
    [arguments.get(k)] is [None] for a missing key. *)
Definition handle_call_tool (job_queue : option RedisJobQueue) (name : pystr)
    (arguments : option (list (pystr * pyval))) : M (list tool_result) :=
  match arguments with
  | None => raise ValueError
  | Some args =>
      if bool_decide (args = []) then raise ValueError else
      let get k := default PNone (dict_get args k) in
      if bool_decide (name = lit "add-note") then
        let note_name := get (lit "name") in
        let content := get (lit "content") in
        if negb (truthy note_name) || negb (truthy content) then raise ValueError else
        setitem_notes note_name content;;
        notify_clients;;
        mret [Added note_name content]
      else if bool_decide (name = lit "add-note-async") then
        match job_queue with
        | None => raise ValueError
        | Some q =>
            let note_name := get (lit "name") in
            let content := get (lit "content") in
            if negb (truthy note_name) || negb (truthy content) then raise ValueError else
            enqueue q (mkJob (PStr (lit "add-note"))
                             (PDict [(lit "name", note_name); (lit "content", content)]));;
            mret [Queued note_name]
        end
      else if bool_decide (name = lit "delete-note") then
        let note_name := get (lit "name") in
        if negb (truthy note_name) then raise ValueError else
        present ← contains_notes note_name;
        if (present : bool) then
          delitem_notes note_name;;
          notify_clients;;
          mret [Deleted note_name]
        else raise ValueError
      else raise ValueError
  end.

(** [handle_list_resources]: one [Resource] per note, in the order of
    [server.notes], named by the note's key (its URI is
    [note://internal/{name}]); the result is given by those keys. *)
Definition handle_list_resources : M (list pyval) :=
  gets (fun w => map fst (notes w)).

(** [str.lstrip("/")]. *)
Fixpoint lstrip_slash (s : pystr) : pystr :=
  match s with
  | 47 :: r => lstrip_slash r
  | _ => s
  end.

(** [handle_read_resource(uri)], on the [scheme] and [path] components
    pydantic's [AnyUrl] parses out of the URI. *)
Definition handle_read_resource (scheme : pystr) (path : option pystr) : M pyval :=
  if negb (bool_decide (scheme = lit "note")) then raise ValueError else
  match path with
  | None => raise ValueError
  | Some p => getitem_notes (PStr (lstrip_slash p))
  end.

(** ["\n".join(items)]. *)
Fixpoint join_lines (l : list pystr) : pystr :=
  match l with
  | [] => []
  | [x] => x
  | x :: r => x ++ [10] ++ join_lines r
  end.

(** [str(v)] of the values a note can hold; for a list or a dict it is
    their [repr], given by [str_container]. *)
Definition py_str (str_container : pyval -> pystr) (v : pyval) : pystr :=
  match v with
  | PNone => lit "None"
  | PBool true => lit "True"
  | PBool false => lit "False"
  | PInt z => int_repr z
  | PFloat f => flt_repr f
  | PStr s => s
  | PList _ | PDict _ => str_container v
  end.

(** [handle_get_prompt(name, arguments)]: the text of its one message. *)
Definition handle_get_prompt (str_container : pyval -> pystr) (name : pystr)
    (arguments : option (list (pystr * pystr))) : M pystr :=
  if negb (bool_decide (name = lit "summarize-notes")) then raise ValueError else
  let style := match arguments with
               | Some a => default (lit "brief") (dict_get a (lit "style"))
               | None => lit "brief"
               end in
  let detail_prompt := if bool_decide (style = lit "detailed")
                       then lit " Give extensive details." else [] in
  gets (fun w =>
    lit "Here are the current notes to summarize:" ++ detail_prompt ++ [10; 10] ++
    join_lines (map (fun '(n, c) => lit "- " ++ py_str str_container n ++ lit ": " ++
                                    py_str str_container c) (notes w))).

(** Printable ASCII: what [json.dumps] writes with [ensure_ascii=True]. *)
Definition printable (c : N) : bool := (32 <=? c) && (c <=? 126).

(** The job [handle_call_tool] queues for [add-note-async]. *)
Definition add_note_job (note_name content : pyval) : Job :=
  mkJob (PStr (lit "add-note")) (PDict [(lit "name", note_name); (lit "content", content)]).

End Server.

(** * Example inputs *)

(** A float model with a single value, [0.0]: [repr] gives ["0.0"] and
    [float()] gives the float back; it satisfies [float_repr_spec]. *)
Definition zero_float : PyFloat := {|
  flt := unit;
  flt_repr _ := lit "0.0";
  flt_finite _ := true;
  flt_nonfinite_text _ := lit "NaN";
  flt_of_text _ := tt;
  flt_eqb _ _ := true;
  flt_eq_int _ z := Z.eqb z 0
|}.

Section Examples.
#[local] Existing Instance zero_float.

(** [Job(type="add-note", data={"name": "w", "content": "c"})]. *)
Definition ex_note_job : Job :=
  mkJob (PStr (lit "add-note")) (PDict [(lit "name", PStr (lit "w")); (lit "content", PStr (lit "c"))]).

(** [Job(type="add-note", data={"name": "x"})]: no ["content"]. *)
Definition ex_bad_job : Job :=
  mkJob (PStr (lit "add-note")) (PDict [(lit "name", PStr (lit "x"))]).

(** A job of an unknown type, with nested data and a float. *)
Definition ex_other_job : Job :=
  mkJob (PStr (lit "resize"))
    (PDict [(lit "size", PList [PInt 3; PInt (-12)]); (lit "ratio", PFloat tt);
            (lit "tag", PStr [233; 10; 128512]); (lit "opts", PDict [(lit "k", PNone); (lit "b", PBool true)])]).

(** A process with empty [server.notes], the given [redis_conn] and
    server-side [request_context], and the given Redis keyspace. *)
Definition ex_world (c : conn_attr) (srv : option session) (st : gmap pystr rvalue) : world :=
  mkWorld [] c None srv st [].

(** A keyspace holding only the list [l] under ["jobs"]. *)
Definition ex_queue (l : list pystr) : gmap pystr rvalue :=
  <[default_queue_name := RList l]> ∅.

(** [{"name": "w", "content": "c"}] and [{"name": "w"}] as tool arguments. *)
Definition ex_args_add : list (pystr * pyval) :=
  [(lit "name", PStr (lit "w")); (lit "content", PStr (lit "c"))].

Definition ex_args_del : list (pystr * pyval) := [(lit "name", PStr (lit "w"))].

(** Names and contents of queued add-note jobs, one name twice. *)
Definition ex_pairs : list (pystr * pystr) :=
  [(lit "a", lit "1"); (lit "b", lit "2"); (lit "a", lit "3")].

End Examples.

(** * Properties *)

Section Proofs.
Context {F : PyFloat}.

(** ** The monad *)

Lemma bind_unfold {A B} (m : M A) (f : A -> M B) (w : world) :
  (m ≫= f) w = match m w with
               | (Ok a, w') => f a w'
               | (Raise e, w') => (Raise e, w')
               end.
Proof. reflexivity. Qed.

Lemma ret_unfold {A} (a : A) (w : world) : (mret a : M A) w = (Ok a, w).
Proof. reflexivity. Qed.

Lemma bind_ok {A B} (m : M A) (f : A -> M B) w a w' :
  m w = (Ok a, w') -> (m ≫= f) w = f a w'.
Proof. intros H. rewrite bind_unfold, H. reflexivity. Qed.

Lemma bind_raise {A B} (m : M A) (f : A -> M B) w e w' :
  m w = (Raise e, w') -> (m ≫= f) w = (Raise e, w').
Proof. intros H. rewrite bind_unfold, H. reflexivity. Qed.

(** ** Dictionaries *)

Lemma py_eq_str_refl (s : pystr) : py_eq (PStr s) (PStr s) = true.
Proof. simpl. apply bool_decide_eq_true. reflexivity. Qed.

Lemma py_eq_str_false (v : pyval) (s : pystr) :
  v <> PStr s -> py_eq v (PStr s) = false.
Proof.
  intros H. destruct v; try reflexivity.
  simpl. apply bool_decide_eq_false. congruence.
Qed.

Lemma notes_get_set (d : list (pyval * pyval)) (s : pystr) (v : pyval) :
  notes_get (notes_set d (PStr s) v) (PStr s) = Some v.
Proof.
  induction d as [|[k' v'] d IH]; cbn [notes_set notes_get].
  - rewrite py_eq_str_refl. reflexivity.
  - destruct (py_eq k' (PStr s)) eqn:E; cbn [notes_get]; rewrite E; auto.
Qed.

Lemma dict_get_set {A} (d : list (pystr * A)) (k : pystr) (v : A) :
  dict_get (dict_set d k v) k = Some v.
Proof.
  induction d as [|[k' v'] d IH]; simpl.
  - rewrite decide_True by reflexivity. reflexivity.
  - destruct (decide (k' = k)); simpl.
    + rewrite decide_True by assumption. reflexivity.
    + rewrite decide_False by assumption. exact IH.
Qed.

(** ** Frame of the queue operations *)

Lemma lit_jobs_notes : default_queue_name <> lit "notes".
Proof. discriminate. Qed.

Lemma lpop_frame (k : pystr) (w w' : world) r :
  lpop k w = (r, w') -> same_except k w w'.
Proof.
  unfold lpop. intros H.
  destruct (store w !! k) as [[l|h]|] eqn:E.
  - destruct l as [|x [|y l]]; injection H as <- <-;
      repeat split; intros k' Hk'; simpl; auto;
      [rewrite lookup_delete_ne by congruence | rewrite lookup_insert_ne by congruence]; auto.
  - injection H as <- <-. repeat split.
  - injection H as <- <-. repeat split.
Qed.

Lemma dequeue_frame (q : RedisJobQueue) (w w' : world) r :
  dequeue q w = (r, w') -> same_except (queue_name q) w w'.
Proof.
  unfold dequeue. rewrite bind_unfold.
  destruct (lpop (queue_name q) w) as [[d|e] w1] eqn:E; intros H.
  - apply lpop_frame in E.
    destruct d as [d|].
    + destruct (decode_job d); injection H as <- <-; exact E.
    + injection H as <- <-. exact E.
  - injection H as <- <-. eapply lpop_frame. exact E.
Qed.

(** [worker_iter] is [dequeue] followed by [process_job]. *)
Lemma worker_iter_job (w w1 : world) (j : Job) :
  dequeue (mkQueue default_queue_name) w = (Ok (Some j), w1) ->
  worker_iter w =
    match process_job j w1 with
    | (Ok _, w2) => (Ok (Processed j), w2)
    | (Raise e, w2) => (Raise e, w2)
    end.
Proof.
  intros H. unfold worker_iter. rewrite (bind_ok _ _ _ _ _ H).
  rewrite bind_unfold. destruct (process_job j w1) as [[]] ; reflexivity.
Qed.

Lemma worker_iter_raise (w w1 : world) (e : exn) :
  dequeue (mkQueue default_queue_name) w = (Raise e, w1) ->
  worker_iter w = (Raise e, w1).
Proof. intros H. unfold worker_iter. exact (bind_raise _ _ _ _ _ H). Qed.

Lemma worker_S_raise (n : nat) (w w1 : world) (e : exn) :
  worker_iter w = (Raise e, w1) -> worker (S n) w = (Raise e, w1).
Proof. intros H. simpl. exact (bind_raise _ _ _ _ _ H). Qed.

Lemma process_job_add_note (j : Job) (kv : list (pystr * pyval)) (name content : pystr)
    (w : world) :
  job_type j = PStr (lit "add-note") -> job_data j = PDict kv ->
  dict_get kv (lit "name") = Some (PStr name) ->
  dict_get kv (lit "content") = Some (PStr content) ->
  process_job j w =
    let w2 := set_notes w (notes_set (notes w) (PStr name) (PStr content)) in
    match redis_conn w with
    | ConnUnset => (Raise AttributeError, w2)
    | ConnNone => notify_step w2
    | ConnSet =>
        match hset (lit "notes") name content w2 with
        | (Ok _, w3) => notify_step w3
        | (Raise e, w3) => (Raise e, w3)
        end
    end.
Proof.
  intros Ht Hd Hn Hc. unfold process_job. rewrite Ht, py_eq_str_refl.
  rewrite (bind_ok _ _ _ (PStr name) w) by (unfold getitem_str; rewrite Hd, Hn; reflexivity).
  rewrite (bind_ok _ _ _ (PStr content) w) by (unfold getitem_str; rewrite Hd, Hc; reflexivity).
  rewrite (bind_ok _ _ _ tt (set_notes w (notes_set (notes w) (PStr name) (PStr content))))
    by reflexivity.
  cbv zeta. rewrite bind_unfold. unfold redis_conn_is_set at 1. cbn [redis_conn set_notes].
  destruct (redis_conn w); [reflexivity| |].
  - unfold notify_step, mbind, M_bind, skip, mret, M_ret, gets, send_resource_list_changed, modify.
    cbn. destruct (module_request_context w); reflexivity.
  - rewrite bind_unfold. unfold redis_hset at 1. cbn [redis_encode].
    rewrite bind_unfold.
    destruct (hset (lit "notes") name content _) as [[a|e] w3]; [|reflexivity].
    unfold notify_step, mbind, M_bind, skip, mret, M_ret, gets, send_resource_list_changed, modify.
    cbn. destruct (module_request_context w3); reflexivity.
Qed.

Lemma notify_step_notes (w : world) : notes (snd (notify_step w)) = notes w.
Proof. unfold notify_step. destruct (module_request_context w); reflexivity. Qed.

Lemma notify_step_store (w : world) : store (snd (notify_step w)) = store w.
Proof. unfold notify_step. destruct (module_request_context w); reflexivity. Qed.

Lemma notify_step_ok (w : world) : fst (notify_step w) = Ok tt.
Proof. unfold notify_step. destruct (module_request_context w); reflexivity. Qed.

Lemma snd_worker_iter_job (w w1 : world) (j : Job) :
  dequeue (mkQueue default_queue_name) w = (Ok (Some j), w1) ->
  snd (worker_iter w) = snd (process_job j w1).
Proof.
  intros H. rewrite (worker_iter_job _ _ _ H). destruct (process_job j w1) as [[] ?]; reflexivity.
Qed.

Lemma hex_val_digit (d : N) : d < 16 -> hex_val (hex_digit d) = Some d.
Proof.
  intros Hd. unfold hex_val, hex_digit.
  destruct (N.ltb_spec d 10);
  repeat match goal with |- context [?a <=? ?b] => destruct (N.leb_spec a b) end;
  simpl; try (f_equal; lia); lia.
Qed.

Lemma lor_shiftl_add (a b k : N) : b < 2 ^ k -> N.lor (N.shiftl a k) b = a * 2 ^ k + b.
Proof.
  intros Hb. rewrite <- N.shiftl_mul_pow2.
  assert (H0 : N.land (N.shiftl a k) b = 0).
  { apply N.bits_inj_0. intros i. rewrite N.land_spec.
    destruct (N.ltb_spec i k).
    - rewrite N.shiftl_spec_low by assumption. reflexivity.
    - rewrite <- (N.mod_small b (2 ^ k)) by assumption.
      rewrite N.mod_pow2_bits_high by assumption. apply andb_false_r. }
  rewrite <- N.lxor_lor by exact H0. rewrite N.add_nocarry_lxor by exact H0. reflexivity.
Qed.

Lemma land_15 (x : N) : N.land x 15 = x mod 16.
Proof. change 15 with (N.ones 4). rewrite N.land_ones. reflexivity. Qed.

Lemma land_1023 (x : N) : N.land x 1023 = x mod 1024.
Proof. change 1023 with (N.ones 10). rewrite N.land_ones. reflexivity. Qed.

Lemma hex_split (n : N) : n < 65536 ->
  (((n / 4096) mod 16 * 16 + (n / 256) mod 16) * 16 + (n / 16) mod 16) * 16 + n mod 16 = n.
Proof.
  intros Hn.
  assert (E1 : n / 16 / 16 = n / 256) by (rewrite N.Div0.div_div; reflexivity).
  assert (E2 : n / 256 / 16 = n / 4096) by (rewrite N.Div0.div_div; reflexivity).
  pose proof (N.div_mod n 16 ltac:(lia)). pose proof (N.div_mod (n / 16) 16 ltac:(lia)).
  pose proof (N.div_mod (n / 256) 16 ltac:(lia)). pose proof (N.div_mod (n / 4096) 16 ltac:(lia)).
  assert (n / 4096 < 16) by (apply N.Div0.div_lt_upper_bound; lia).
  rewrite E1 in *. rewrite E2 in *.
  rewrite (N.mod_small (n / 4096) 16) in * by lia. lia.
Qed.

Lemma decode_hex4_hex4 (c : N) : c < 65536 ->
  decode_hex4 (hex_digit (N.land (N.shiftr c 12) 15)) (hex_digit (N.land (N.shiftr c 8) 15))
              (hex_digit (N.land (N.shiftr c 4) 15)) (hex_digit (N.land c 15)) = Some c.
Proof.
  intros Hc. unfold decode_hex4.
  rewrite !land_15, !N.shiftr_div_pow2.
  rewrite !hex_val_digit by (apply N.mod_lt; lia).
  rewrite !lor_shiftl_add by (apply N.mod_lt; lia).
  f_equal. change (2 ^ 12) with 4096. change (2 ^ 8) with 256. change (2 ^ 4) with 16.
  exact (hex_split c Hc).
Qed.

Lemma surrogates_join (c : N) : 65536 <= c <= 1114111 ->
  high_surrogate c < 65536 /\ low_surrogate c < 65536 /\
  is_high_surrogate (high_surrogate c) = true /\ is_low_surrogate (low_surrogate c) = true /\
  join_surrogates (high_surrogate c) (low_surrogate c) = c.
Proof.
  intros Hc. unfold high_surrogate, low_surrogate, join_surrogates, is_high_surrogate, is_low_surrogate.
  rewrite !land_1023, N.shiftr_div_pow2. change (2 ^ 10) with 1024. change (55296 - 64) with 55232.
  set (q := c / 1024). set (r := c mod 1024).
  pose proof (N.div_mod c 1024 ltac:(lia)). pose proof (N.mod_lt c 1024 ltac:(lia)).
  fold q r in H, H0.
  assert (64 <= q <= 1087) by lia.
  assert (E1 : (55232 + q) mod 1024 = q - 64) by (symmetry; apply (N.mod_unique _ _ 54); lia).
  assert (E2 : (56320 + r) mod 1024 = r) by (symmetry; apply (N.mod_unique _ _ 55); lia).
  rewrite E1, E2, lor_shiftl_add by (change (2 ^ 10) with 1024; lia).
  change (2 ^ 10) with 1024.
  repeat split; try lia;
  repeat match goal with |- context [?a <=? ?b] => destruct (N.leb_spec a b) end; simpl; try reflexivity; lia.
Qed.


Lemma scan_str_char (c : N) (tl acc : pystr) :
  scalar c = true -> tl <> [] ->
  scan_str (escape_char c ++ tl) acc = scan_str tl (c :: acc).
Proof.
  intros Hs Htl. unfold scalar in Hs.
  apply andb_prop in Hs as [Hmax Hsur]. apply N.leb_le in Hmax.
  unfold escape_char.
  destruct (s_char c) eqn:Esc.
  - unfold s_char in Esc. apply andb_prop in Esc as [Esc Eq]. apply andb_prop in Esc as [Esc Eb].
    apply andb_prop in Esc as [E1 E2]. apply N.leb_le in E1, E2.
    simpl. unfold c_quote, c_bslash in *.
    apply negb_true_iff in Eq, Eb. rewrite Eq, Eb.
    destruct (N.leb_spec c 31); [lia|]. reflexivity.
  - unfold escape_unichar.
    destruct (N.eqb_spec c c_bslash) as [->|]; [reflexivity|].
    destruct (N.eqb_spec c c_quote) as [->|]; [reflexivity|].
    destruct (N.eqb_spec c 8) as [->|]; [reflexivity|].
    destruct (N.eqb_spec c 12) as [->|]; [reflexivity|].
    destruct (N.eqb_spec c 10) as [->|]; [reflexivity|].
    destruct (N.eqb_spec c 13) as [->|]; [reflexivity|].
    destruct (N.eqb_spec c 9) as [->|]; [reflexivity|].
    destruct (N.leb_spec 65536 c).
    + destruct (surrogates_join c ltac:(lia)) as (Hh & Hl & Eh & El & Ej).
      destruct tl as [|t0 tl]; [congruence|].
      unfold hex4. cbn [app scan_str].
      change (92 =? c_quote) with false. change (92 =? c_bslash) with true. cbn iota.
      change (117 =? 117) with true. cbn iota.
      rewrite (decode_hex4_hex4 _ Hh), Eh.
      change ((92 =? c_bslash) && (117 =? 117)) with true. cbn iota.
      rewrite (decode_hex4_hex4 _ Hl), El, Ej. reflexivity.
    + destruct tl as [|t0 tl]; [congruence|].
      unfold hex4. cbn [app scan_str].
      change (92 =? c_quote) with false. change (92 =? c_bslash) with true. cbn iota.
      change (117 =? 117) with true. cbn iota.
      rewrite (decode_hex4_hex4 c ltac:(lia)).
      apply negb_true_iff in Hsur. unfold is_high_surrogate.
      destruct (N.leb_spec 55296 c), (N.leb_spec c 56319); simpl in Hsur |- *;
        try reflexivity;
        destruct (N.leb_spec c 57343); simpl in Hsur; try discriminate; lia.
Qed.

Lemma scan_str_encode (s tl acc : pystr) :
  forallb scalar s = true ->
  scan_str (concat (map escape_char s) ++ c_quote :: tl) acc = Some (rev acc ++ s, tl).
Proof.
  revert acc. induction s as [|c s IH]; intros acc Hs; simpl in Hs |- *.
  - rewrite app_nil_r. reflexivity.
  - apply andb_prop in Hs as [Hc Hs].
    rewrite <- app_assoc, scan_str_char by (auto; destruct (concat _); discriminate).
    rewrite IH by exact Hs. simpl. rewrite <- app_assoc. reflexivity.
Qed.


(** Characters that may follow a value. *)
Lemma stop_char_cases (x : N) (r : pystr) :
  stop_head (x :: r) = true -> x = 44 \/ x = 93 \/ x = 125.
Proof.
  simpl. intros H.
  destruct (N.eqb_spec x 44); [auto|]. destruct (N.eqb_spec x 93); [auto|].
  destruct (N.eqb_spec x 125); [auto|discriminate].
Qed.

Lemma span_digits_app (u r : pystr) (x : N) :
  stop_head (x :: r) = true ->
  span_digits (u ++ x :: r) = (fst (span_digits u), snd (span_digits u) ++ x :: r).
Proof.
  intros Hx. apply stop_char_cases in Hx.
  induction u as [|c u IH]; simpl.
  - destruct Hx as [-> | [-> | ->]]; reflexivity.
  - destruct (is_digit c); [|reflexivity].
    rewrite IH. destruct (span_digits u); reflexivity.
Qed.

Lemma num_int_part_app (u r : pystr) (x : N) :
  stop_head (x :: r) = true ->
  num_int_part (u ++ x :: r) =
    match num_int_part u with Some (a, b) => Some (a, b ++ x :: r) | None => None end.
Proof.
  intros Hx. destruct u as [|d t]; simpl.
  - apply stop_char_cases in Hx. destruct Hx as [-> | [-> | ->]]; reflexivity.
  - destruct ((49 <=? d) && (d <=? 57)).
    + rewrite (span_digits_app t _ _ Hx). destruct (span_digits t); reflexivity.
    + destruct (d =? 48); reflexivity.
Qed.

Lemma num_frac_part_app (u r : pystr) (x : N) :
  stop_head (x :: r) = true ->
  num_frac_part (u ++ x :: r) = (fst (num_frac_part u), snd (num_frac_part u) ++ x :: r).
Proof.
  intros Hx. pose proof (fun v => span_digits_app v _ _ Hx) as Hs.
  apply stop_char_cases in Hx.
  destruct u as [|p [|d t]]; simpl.
  - destruct Hx as [-> | [-> | ->]]; destruct r; reflexivity.
  - destruct Hx as [-> | [-> | ->]]; rewrite ?andb_false_r; reflexivity.
  - destruct ((p =? 46) && is_digit d); [|reflexivity].
    rewrite Hs. destruct (span_digits t); reflexivity.
Qed.

Lemma num_exp_part_app (u r : pystr) (x : N) :
  stop_head (x :: r) = true ->
  num_exp_part (u ++ x :: r) = (fst (num_exp_part u), snd (num_exp_part u) ++ x :: r).
Proof.
  intros Hx. pose proof (fun v => span_digits_app v _ _ Hx) as Hs.
  pose proof (span_digits_app [] _ _ Hx) as Hs0. simpl in Hs0.
  apply stop_char_cases in Hx.
  destruct u as [|e t]; simpl.
  - destruct Hx as [-> | [-> | ->]]; reflexivity.
  - destruct ((e =? 101) || (e =? 69)); [|reflexivity].
    destruct t as [|sg t]; simpl.
    + destruct Hx as [-> | [-> | ->]]; simpl; reflexivity.
    + destruct ((sg =? 45) || (sg =? 43)).
      * rewrite Hs. destruct (span_digits t) as [[|d ds] t'']; reflexivity.
      * simpl. destruct (is_digit sg); [|reflexivity].
        rewrite Hs. destruct (span_digits t) as [ds t'']; reflexivity.
Qed.

(** Appending what may follow a value does not change the number
    token [_match_number_unicode] reads. *)
Lemma match_number_app (s rest : pystr) :
  stop_head rest = true ->
  match_number (s ++ rest) =
    match match_number s with Some (t, b, r) => Some (t, b, r ++ rest) | None => None end.
Proof.
  intros Hr. destruct rest as [|x r].
  { rewrite app_nil_r. destruct (match_number s) as [[[t b] u]|]; rewrite ?app_nil_r; reflexivity. }
  unfold match_number.
  assert (Hsg : (if head_is 45 (s ++ x :: r) then ([45], tail (s ++ x :: r)) else ([], s ++ x :: r))
              = (fst (if head_is 45 s then ([45], tail s) else ([], s)),
                 snd (if head_is 45 s then ([45], tail s) else ([], s)) ++ x :: r)).
  { destruct s as [|c s]; simpl.
    - apply stop_char_cases in Hr. destruct Hr as [-> | [-> | ->]]; reflexivity.
    - destruct (c =? 45); reflexivity. }
  rewrite Hsg. destruct (if head_is 45 s then _ else _) as [sgn s1]. simpl.
  rewrite (num_int_part_app _ _ _ Hr).
  destruct (num_int_part s1) as [[ip t1]|]; [|reflexivity].
  rewrite (num_frac_part_app _ _ _ Hr). destruct (num_frac_part t1) as [frac t2]. simpl.
  rewrite (num_exp_part_app _ _ _ Hr). destruct (num_exp_part t2) as [expo t3]. reflexivity.
Qed.


Lemma uint_chars_digits (u : Decimal.uint) : forallb is_digit (uint_chars u) = true.
Proof. induction u; simpl; auto. Qed.

Lemma span_digits_all (ds : pystr) : forallb is_digit ds = true -> span_digits ds = (ds, []).
Proof.
  induction ds as [|d ds IH]; simpl; [reflexivity|].
  intros H. apply andb_prop in H as [-> H]. rewrite IH by exact H. reflexivity.
Qed.

Lemma digits_val_acc (u : Decimal.uint) (acc : positive) :
  fold_left (fun a d => 10 * a + (d - 48)) (uint_chars u) (N.pos acc) =
  N.pos (Pos.of_uint_acc u acc).
Proof.
  revert acc. induction u; intros acc; simpl; rewrite <- ?IHu; try reflexivity;
    f_equal; lia.
Qed.

Lemma digits_val_uint (u : Decimal.uint) : digits_val (uint_chars u) = N.of_uint u.
Proof.
  unfold digits_val. induction u; simpl; try exact IHu; try reflexivity;
    rewrite <- digits_val_acc; reflexivity.
Qed.

(** [int.__repr__] writes no leading zero. *)
Lemma uint_chars_lead (n : N) :
  uint_chars (N.to_uint n) = [48] \/
  exists d ds, uint_chars (N.to_uint n) = d :: ds /\ 49 <= d <= 57 /\ forallb is_digit ds = true.
Proof.
  assert (E : N.to_uint n = unorm (N.to_uint n)).
  { rewrite <- DecimalN.Unsigned.to_of, DecimalN.Unsigned.of_to. reflexivity. }
  rewrite E. unfold unorm.
  destruct (nzhead (N.to_uint n)) as [|d|d|d|d|d|d|d|d|d|d] eqn:Ez;
    try (left; reflexivity);
    try (exfalso; exact (nzhead_nonzero _ _ Ez));
    right; eexists _, _; refine (conj eq_refl (conj _ (uint_chars_digits _))); lia.
Qed.

Lemma match_number_int (z : Z) : match_number (int_repr z) = Some (int_repr z, false, []).
Proof.
  assert (Hu : forall n, num_int_part (uint_chars (N.to_uint n)) = Some (uint_chars (N.to_uint n), [])).
  { intros n. destruct (uint_chars_lead n) as [E | (d & ds & E & Hd & Hds)]; rewrite E; [reflexivity|].
    simpl. destruct (N.leb_spec 49 d), (N.leb_spec d 57); try lia. simpl.
    rewrite span_digits_all by exact Hds. reflexivity. }
  assert (Hh : forall n, head_is 45 (uint_chars (N.to_uint n)) = false).
  { intros n. destruct (uint_chars_lead n) as [E | (d & ds & E & Hd & Hds)]; rewrite E; [reflexivity|].
    simpl. apply N.eqb_neq. lia. }
  unfold match_number, int_repr. destruct (Z.ltb z 0).
  - simpl. rewrite Hu. simpl. rewrite app_nil_r. reflexivity.
  - rewrite Hh, Hu. simpl. rewrite !app_nil_r. reflexivity.
Qed.

Lemma int_of_token_repr (z : Z) : int_of_token (int_repr z) = z.
Proof.
  unfold int_repr, int_of_token. destruct (Z.ltb_spec z 0).
  - rewrite digits_val_uint, DecimalN.Unsigned.of_to. lia.
  - destruct (uint_chars_lead (Z.to_N z)) as [E | (d & ds & E & Hd & Hds)]; rewrite E.
    + simpl. assert (Z.to_N z = 0)%N.
      { rewrite <- (DecimalN.Unsigned.of_to (Z.to_N z)), <- digits_val_uint, E. reflexivity. }
      lia.
    + rewrite <- E, digits_val_uint, DecimalN.Unsigned.of_to.
      destruct d as [|p]; [lia|].
      destruct p as [p|p|]; try (destruct p; try lia; destruct p; try lia; destruct p; try lia;
        destruct p; try lia; destruct p; try lia; destruct p; try lia); lia.
Qed.


(** ** Values, by nested induction *)

Lemma pyval_nested_ind (P : pyval -> Prop) :
  P PNone -> (forall b, P (PBool b)) -> (forall z, P (PInt z)) ->
  (forall f, P (PFloat f)) -> (forall s, P (PStr s)) ->
  (forall l, Forall P l -> P (PList l)) ->
  (forall kv, Forall (fun kx => P (snd kx)) kv -> P (PDict kv)) ->
  forall v, P v.
Proof.
  intros Hn Hb Hi Hf Hs Hl Hd. fix IH 1. intros [| | | | |l|kv].
  - exact Hn.
  - apply Hb.
  - apply Hi.
  - apply Hf.
  - apply Hs.
  - apply Hl. induction l as [|x l IHl]; constructor; [apply IH | exact IHl].
  - apply Hd. induction kv as [|[k x] kv IHkv]; constructor; [apply IH | exact IHkv].
Qed.

Lemma json_ok_list (l : list pyval) : json_ok (PList l) = forallb json_ok l.
Proof. induction l as [|x l IH]; simpl; [reflexivity|]. rewrite <- IH. reflexivity. Qed.

Lemma json_ok_dict (kv : list (pystr * pyval)) :
  json_ok (PDict kv) =
    bool_decide (NoDup (map fst kv)) &&
    forallb (fun kx => forallb scalar (fst kx) && json_ok (snd kx)) kv.
Proof.
  simpl. f_equal. induction kv as [|[k x] kv IH]; simpl; [reflexivity|]. rewrite IH. reflexivity.
Qed.

Lemma vsize_list (l : list pyval) :
  vsize (PList l) = S (sum_list_with (fun y => 2 + vsize y)%nat l).
Proof. induction l as [|x l IH]; simpl in *; [reflexivity|]. lia. Qed.

Lemma vsize_dict (kv : list (pystr * pyval)) :
  vsize (PDict kv) = S (sum_list_with (fun kx => 2 + vsize (snd kx))%nat kv).
Proof.
  induction kv as [|[k x] kv IH]; simpl in *; [reflexivity|]. lia.
Qed.

Lemma dumps_list (x : pyval) (xs : list pyval) :
  dumps (PList (x :: xs)) = [91] ++ dumps x ++ dumps_items xs.
Proof.
  simpl. do 2 f_equal.
Qed.

Lemma dumps_dict (k : pystr) (x : pyval) (kvs : list (pystr * pyval)) :
  dumps (PDict ((k, x) :: kvs)) =
    [123] ++ encode_str k ++ [58; 32] ++ dumps x ++ dumps_dict_items kvs.
Proof.
  simpl. do 5 f_equal.
Qed.

(** [PyDict_SetItem] with keys not yet present appends. *)
Lemma dict_set_new {A} (d : list (pystr * A)) (k : pystr) (v : A) :
  k ∉ map fst d -> dict_set d k v = d ++ [(k, v)].
Proof.
  induction d as [|[k' v'] d IH]; simpl; [reflexivity|].
  intros Hk. rewrite decide_False by (intros ->; apply Hk; left).
  rewrite IH; [reflexivity|]. intros Hin. apply Hk. right. exact Hin.
Qed.

Lemma dict_of_pairs_nodup (kvs : list (pystr * pyval)) :
  NoDup (map fst kvs) -> dict_of_pairs kvs = kvs.
Proof.
  unfold dict_of_pairs.
  assert (Hg : forall d, NoDup (map fst (d ++ kvs)) ->
            fold_left (fun d '(k, v) => dict_set d k v) kvs d = d ++ kvs).
  { induction kvs as [|[k v] kvs IH]; intros d Hd; simpl.
    - rewrite app_nil_r. reflexivity.
    - rewrite dict_set_new.
      + rewrite IH; [rewrite <- app_assoc; reflexivity|]. rewrite <- app_assoc. exact Hd.
      + rewrite map_app in Hd. simpl in Hd. apply NoDup_app in Hd as (_ & Hd & _).
        intros Hin. apply (Hd k Hin). left.
  }
  intros H. exact (Hg [] H).
Qed.


(** ** Number tokens in [scan_once] *)


Lemma num_int_part_head (u : pystr) p :
  num_int_part u = Some p -> exists d u', u = d :: u' /\ is_digit d = true.
Proof.
  destruct u as [|d u]; simpl; [discriminate|]. intros H. exists d, u. split; [reflexivity|].
  unfold is_digit.
  destruct ((49 <=? d) && (d <=? 57)) eqn:E.
  - apply andb_prop in E as [E1%N.leb_le E2%N.leb_le].
    apply andb_true_intro. split; apply N.leb_le; lia.
  - destruct (N.eqb_spec d 48); [subst; reflexivity|discriminate].
Qed.

Lemma match_number_head (s : pystr) t b r :
  match_number s = Some (t, b, r) -> number_head s.
Proof.
  unfold match_number. destruct s as [|c s]; [simpl; discriminate|].
  cbn [head_is tail]. destruct (N.eqb_spec c 45) as [->|Hc].
  - destruct (num_int_part s) eqn:E; [|discriminate]. intros _.
    destruct (num_int_part_head _ _ E) as (d & u & -> & Hd).
    exists 45, (d :: u). split; [reflexivity|]. right. split; [reflexivity|]. eauto.
  - destruct (num_int_part (c :: s)) eqn:E; [|discriminate]. intros _.
    destruct (num_int_part_head _ _ E) as (d & u & Hu & Hd). injection Hu as -> ->.
    exists d, u. auto.
Qed.

Ltac digit_neq :=
  repeat match goal with
  | H : is_digit ?c = true |- _ =>
      unfold is_digit in H; apply andb_prop in H as [?%N.leb_le ?%N.leb_le]
  end;
  repeat match goal with
  | |- context [?a =? ?b] =>
      let E := fresh in
      assert (E : (a =? b) = false) by (apply N.eqb_neq; lia); rewrite E; clear E
  end.

Lemma scan_once_number (fuel : nat) (s : pystr) :
  number_head s ->
  scan_once (S fuel) s =
    match match_number s with
    | Some (tok, true, r) => Some (PFloat (flt_of_text tok), r)
    | Some (tok, false, r) => Some (PInt (int_of_token tok), r)
    | None => None
    end.
Proof.
  intros (c & s' & -> & [Hd | (-> & d & s'' & -> & Hd)]).
  - cbn [scan_once]. unfold c_quote.
    change (lit "null") with [110; 117; 108; 108]. change (lit "true") with [116; 114; 117; 101].
    change (lit "false") with [102; 97; 108; 115; 101]. change (lit "NaN") with [78; 97; 78].
    change (lit "Infinity") with [73; 110; 102; 105; 110; 105; 116; 121].
    change (lit "-Infinity") with [45; 73; 110; 102; 105; 110; 105; 116; 121].
    cbn [starts_with]. digit_neq. reflexivity.
  - cbn [scan_once]. unfold c_quote.
    change (lit "null") with [110; 117; 108; 108]. change (lit "true") with [116; 114; 117; 101].
    change (lit "false") with [102; 97; 108; 115; 101]. change (lit "NaN") with [78; 97; 78].
    change (lit "Infinity") with [73; 110; 102; 105; 110; 105; 116; 121].
    change (lit "-Infinity") with [45; 73; 110; 102; 105; 110; 105; 116; 121].
    cbn [starts_with]. digit_neq. reflexivity.
Qed.

Lemma int_repr_head (z : Z) : number_head (int_repr z).
Proof. eapply match_number_head. apply match_number_int. Qed.

Lemma int_token (z : Z) (rest : pystr) :
  stop_head rest = true ->
  forall fuel, scan_once (S fuel) (int_repr z ++ rest) = Some (PInt z, rest).
Proof.
  intros Hr fuel. rewrite scan_once_number.
  - rewrite match_number_app, match_number_int by exact Hr. simpl. rewrite int_of_token_repr. reflexivity.
  - destruct (int_repr_head z) as (c & s' & E & Hc).
    exists c, (s' ++ rest). rewrite E. split; [reflexivity|].
    destruct Hc as [Hc | (-> & d & s'' & -> & Hd)]; [left; exact Hc|].
    right. split; [reflexivity|]. exists d, (s'' ++ rest). auto.
Qed.

Lemma vsize_le (v : pyval) : (vsize v <= 2 * length (dumps v))%nat.
Proof.
  revert v. refine (pyval_nested_ind _ _ _ _ _ _ _ _); try (intros; simpl; lia).
  - intros l HF. destruct l as [|x xs]; [simpl; lia|].
    rewrite vsize_list, dumps_list, !length_app.
    apply Forall_cons in HF as [Hx HF].
    assert (Hi : (2 + sum_list_with (fun y => 2 + vsize y) xs <= 2 * length (dumps_items xs))%nat).
    { induction xs as [|y ys IH]; simpl; [lia|].
      apply Forall_cons in HF as [Hy HF]. specialize (IH HF). rewrite !length_app. simpl in IH |- *. lia. }
    simpl in Hi |- *. lia.
  - intros kv HF. destruct kv as [|[k x] kvs]; [simpl; lia|].
    rewrite vsize_dict, dumps_dict, !length_app.
    apply Forall_cons in HF as [Hx HF]. simpl in Hx.
    assert (Hi : (2 + sum_list_with (fun kx => 2 + vsize (snd kx)) kvs
                  <= 2 * length (dumps_dict_items kvs))%nat).
    { induction kvs as [|[k' y] ys IH]; simpl; [lia|].
      apply Forall_cons in HF as [Hy HF]. specialize (IH HF). simpl in Hy, IH |- *. repeat (rewrite length_app; simpl). lia. }
    simpl in Hi |- *. lia.
Qed.

Section Floats.
Hypothesis Hflt : float_repr_spec.

(** The first character of the text of a JSON-representable value is
    not whitespace and not a closing bracket. *)
Lemma dumps_head (v : pyval) :
  json_ok v = true ->
  exists c t, dumps v = c :: t /\ is_ws c = false /\ c <> 93 /\ c <> 125 /\ c <> 44 /\ c < 126.
Proof.
  intros Hok.
  assert (Hnum : forall s, number_head s ->
            exists c t, s = c :: t /\ is_ws c = false /\ c <> 93 /\ c <> 125 /\ c <> 44 /\ c < 126).
  { intros s (c & s' & -> & Hc). exists c, s'. split; [reflexivity|].
    destruct Hc as [Hc | (-> & _)]; [|repeat split; (discriminate || lia)].
    unfold is_digit in Hc. apply andb_prop in Hc as [H1%N.leb_le H2%N.leb_le].
    unfold is_ws. digit_neq. repeat split; lia. }
  destruct v as [|[]|z|f|s|[|x xs]|[|[k x] kvs]]; simpl in Hok |- *;
    try (eexists _, _; split; [reflexivity|]; repeat split; (discriminate || lia)).
  - apply Hnum, int_repr_head.
  - unfold float_text. rewrite Hok. destruct (Hflt f Hok) as [Hm _].
    apply Hnum. exact (match_number_head _ _ _ _ Hm).
Qed.

Lemma skip_ws_dumps (v : pyval) (rest : pystr) :
  json_ok v = true -> skip_ws (dumps v ++ rest) = dumps v ++ rest.
Proof.
  intros Hok. destruct (dumps_head v Hok) as (c & t & -> & Hw & _). simpl. rewrite Hw. reflexivity.
Qed.

Lemma head_is_dumps (v : pyval) (rest : pystr) (x : N) :
  json_ok v = true -> x = 93 \/ x = 125 \/ x = 44 -> head_is x (dumps v ++ rest) = false.
Proof.
  intros Hok Hx. destruct (dumps_head v Hok) as (c & t & -> & _ & H1 & H2 & H3 & _). simpl.
  apply N.eqb_neq. intros ->. destruct Hx as [-> | [-> | ->]]; auto.
Qed.

Lemma float_token (f : flt) (rest : pystr) :
  flt_finite f = true -> stop_head rest = true ->
  forall fuel, scan_once (S fuel) (flt_repr f ++ rest) = Some (PFloat f, rest).
Proof.
  intros Hfin Hr fuel. destruct (Hflt f Hfin) as [Hm Hof].
  rewrite scan_once_number.
  - rewrite match_number_app, Hm by exact Hr. simpl. rewrite Hof. reflexivity.
  - destruct (match_number_head _ _ _ _ Hm) as (c & s' & E & Hc).
    exists c, (s' ++ rest). rewrite E. split; [reflexivity|].
    destruct Hc as [Hc | (-> & d & s'' & -> & Hd)]; [left; exact Hc|].
    right. split; [reflexivity|]. exists d, (s'' ++ rest). auto.
Qed.


(** One unfolding of the scanner on an array or an object. *)
Lemma scan_once_bracket (f : nat) (s : pystr) :
  scan_once (S f) ([91] ++ s) =
    if head_is 93 (skip_ws s) then Some (PList [], tail (skip_ws s))
    else match parse_array_items f (skip_ws s) with
         | Some (vs, r) => Some (PList vs, r)
         | None => None
         end.
Proof. reflexivity. Qed.

Lemma scan_once_brace (f : nat) (s : pystr) :
  scan_once (S f) ([123] ++ s) =
    if head_is 125 (skip_ws s) then Some (PDict [], tail (skip_ws s))
    else match parse_object_items f (skip_ws s) with
         | Some (kvs, r) => Some (PDict (dict_of_pairs kvs), r)
         | None => None
         end.
Proof. reflexivity. Qed.

Lemma parse_array_items_S (f : nat) (s : pystr) :
  parse_array_items (S f) s =
    match scan_once f s with
    | None => None
    | Some (v, r) =>
        if head_is 93 (skip_ws r) then Some ([v], tail (skip_ws r))
        else if head_is 44 (skip_ws r) then
          match parse_array_items f (skip_ws (tail (skip_ws r))) with
          | Some (vs, r'') => Some (v :: vs, r'')
          | None => None
          end
        else None
    end.
Proof. reflexivity. Qed.

Lemma parse_object_items_S (f : nat) (s : pystr) :
  parse_object_items (S f) s =
    if head_is 34 s then
      match scan_str (tail s) [] with
      | None => None
      | Some (k, r) =>
          if head_is 58 (skip_ws r) then
            match scan_once f (skip_ws (tail (skip_ws r))) with
            | None => None
            | Some (v, r2) =>
                if head_is 125 (skip_ws r2) then Some ([(k, v)], tail (skip_ws r2))
                else if head_is 44 (skip_ws r2) then
                  match parse_object_items f (skip_ws (tail (skip_ws r2))) with
                  | Some (kvs, r4) => Some ((k, v) :: kvs, r4)
                  | None => None
                  end
                else None
            end
          else None
      end
    else None.
Proof. reflexivity. Qed.


Lemma parse_array_dumps (x : pyval) (xs : list pyval) :
  Forall (fun y => json_ok y = true /\ scans y) (x :: xs) ->
  forall fuel rest, (sum_list_with (fun y => 2 + vsize y)%nat (x :: xs) <= fuel)%nat ->
    stop_head rest = true ->
    parse_array_items fuel (dumps x ++ dumps_items xs ++ rest) = Some (x :: xs, rest).
Proof.
  revert x. induction xs as [|y ys IH]; intros x HP fuel rest Hf Hr;
    apply Forall_cons in HP as [[Hok Hx] HP]; simpl in Hf;
    (destruct fuel as [|f]; [lia|]); rewrite parse_array_items_S.
  - rewrite Hx by (reflexivity || lia). reflexivity.
  - rewrite Hx by (reflexivity || lia).
    change (skip_ws (tail (skip_ws (dumps_items (y :: ys) ++ rest))))
      with (skip_ws ((dumps y ++ dumps_items ys) ++ rest)).
    rewrite <- app_assoc.
    apply Forall_cons in HP as HP'. destruct HP' as [[Hoky _] _].
    rewrite skip_ws_dumps by exact Hoky.
    rewrite IH; [reflexivity | exact HP | simpl; lia | exact Hr].
Qed.

Lemma scan_str_encode_str (k t : pystr) :
  forallb scalar k = true -> scan_str (tail (encode_str k ++ t)) [] = Some (k, t).
Proof.
  intros Hk. unfold encode_str. rewrite <- !app_assoc. apply scan_str_encode. exact Hk.
Qed.

Lemma parse_object_items_entry (f : nat) (k : pystr) (x : pyval) (t : pystr) :
  forallb scalar k = true -> json_ok x = true ->
  parse_object_items (S f) (encode_str k ++ [58; 32] ++ dumps x ++ t) =
    match scan_once f (dumps x ++ t) with
    | None => None
    | Some (v, r2) =>
        if head_is 125 (skip_ws r2) then Some ([(k, v)], tail (skip_ws r2))
        else if head_is 44 (skip_ws r2) then
          match parse_object_items f (skip_ws (tail (skip_ws r2))) with
          | Some (kvs, r4) => Some ((k, v) :: kvs, r4)
          | None => None
          end
        else None
    end.
Proof.
  intros Hk Hok. rewrite parse_object_items_S.
  change (head_is 34 (encode_str k ++ [58; 32] ++ dumps x ++ t)) with true. cbv iota.
  rewrite scan_str_encode_str by exact Hk.
  change (skip_ws (tail (skip_ws ([58; 32] ++ dumps x ++ t)))) with (skip_ws (dumps x ++ t)).
  rewrite skip_ws_dumps by exact Hok. reflexivity.
Qed.

Lemma parse_object_dumps (k : pystr) (x : pyval) (kvs : list (pystr * pyval)) :
  Forall (fun kx => forallb scalar (fst kx) = true /\ json_ok (snd kx) = true /\ scans (snd kx))
    ((k, x) :: kvs) ->
  forall fuel rest, (sum_list_with (fun kx => 2 + vsize (snd kx))%nat ((k, x) :: kvs) <= fuel)%nat ->
    stop_head rest = true ->
    parse_object_items fuel (encode_str k ++ [58; 32] ++ dumps x ++ dumps_dict_items kvs ++ rest)
      = Some ((k, x) :: kvs, rest).
Proof.
  revert k x. induction kvs as [|[k' y] ys IH]; intros k x HP fuel rest Hf Hr;
    apply Forall_cons in HP as [(Hk & Hok & Hx) HP]; cbn [fst snd] in Hk, Hok, Hx; simpl in Hf;
    (destruct fuel as [|f]; [lia|]); rewrite parse_object_items_entry by assumption.
  - rewrite Hx by (reflexivity || lia). reflexivity.
  - rewrite Hx by (reflexivity || lia).
    change (skip_ws (tail (skip_ws (dumps_dict_items ((k', y) :: ys) ++ rest))))
      with ((encode_str k' ++ [58; 32] ++ dumps y ++ dumps_dict_items ys) ++ rest).
    change (head_is 125 (skip_ws (dumps_dict_items ((k', y) :: ys) ++ rest))) with false.
    change (head_is 44 (skip_ws (dumps_dict_items ((k', y) :: ys) ++ rest))) with true.
    cbv iota. rewrite <- !app_assoc.
    rewrite IH; [reflexivity | exact HP | simpl; lia | exact Hr].
Qed.

(** [json.loads] reads back what [json.dumps] writes, followed by any
    text that may follow a value. *)
Lemma scan_once_dumps (v : pyval) : json_ok v = true -> scans v.
Proof.
  revert v. refine (pyval_nested_ind _ _ _ _ _ _ _ _); unfold scans.
  - intros _ fuel rest Hf Hr. destruct fuel; [lia|]. reflexivity.
  - intros [] _ fuel rest Hf Hr; (destruct fuel; [lia|]); reflexivity.
  - intros z _ fuel rest Hf Hr. destruct fuel; [lia|]. apply int_token. exact Hr.
  - intros fl Hok fuel rest Hf Hr. destruct fuel; [lia|]. simpl in Hok.
    simpl. unfold float_text. rewrite Hok. apply float_token; assumption.
  - intros str Hok fuel rest Hf Hr. destruct fuel; [lia|]. simpl in Hok.
    simpl dumps. unfold encode_str. rewrite <- !app_assoc. simpl.
    rewrite scan_str_encode by exact Hok. reflexivity.
  - intros l HF Hok fuel rest Hf Hr. rewrite json_ok_list in Hok. rewrite vsize_list in Hf.
    destruct l as [|x xs]; (destruct fuel as [|f]; [lia|]); [reflexivity|].
    rewrite dumps_list, <- !app_assoc, scan_once_bracket.
    simpl in Hok. apply andb_prop in Hok as [Hokx Hoks].
    rewrite skip_ws_dumps, head_is_dumps by auto.
    rewrite parse_array_dumps; [reflexivity | | lia | exact Hr].
    apply Forall_forall. intros y Hy. rewrite Forall_forall in HF.
    assert (Hoky : json_ok y = true).
    { apply elem_of_cons in Hy as [-> | Hy]; [exact Hokx|].
      apply forallb_forall with (x := y) in Hoks; [exact Hoks | apply list_elem_of_In; exact Hy]. }
    split; [exact Hoky | exact (HF y Hy Hoky)].
  - intros kv HF Hok fuel rest Hf Hr. rewrite json_ok_dict in Hok. rewrite vsize_dict in Hf.
    apply andb_prop in Hok as [Hnd Hok]. apply bool_decide_eq_true in Hnd.
    destruct kv as [|[k x] kvs]; (destruct fuel as [|f]; [lia|]); [reflexivity|].
    rewrite dumps_dict, <- !app_assoc, scan_once_brace.
    change (skip_ws (encode_str k ++ [58; 32] ++ dumps x ++ dumps_dict_items kvs ++ rest))
      with (encode_str k ++ [58; 32] ++ dumps x ++ dumps_dict_items kvs ++ rest).
    change (head_is 125 (encode_str k ++ [58; 32] ++ dumps x ++ dumps_dict_items kvs ++ rest))
      with false.
    cbv iota.
    rewrite parse_object_dumps; [rewrite dict_of_pairs_nodup by exact Hnd; reflexivity | | lia | exact Hr].
    apply Forall_forall. intros kx Hkx. rewrite Forall_forall in HF.
    apply forallb_forall with (x := kx) in Hok; [|apply list_elem_of_In; exact Hkx].
    apply andb_prop in Hok as [Hk Hx]. split; [exact Hk|]. split; [exact Hx|]. exact (HF kx Hkx Hx).
Qed.


Lemma loads_dumps (v : pyval) : json_ok v = true -> loads (dumps v) = Some v.
Proof.
  intros Hok. unfold loads.
  destruct (dumps_head v Hok) as (c & t & E & _ & _ & _ & _ & Hc).
  assert (Hb : head_is 65279 (dumps v) = false) by (rewrite E; simpl; apply N.eqb_neq; lia).
  rewrite Hb. rewrite <- (app_nil_r (dumps v)) at 2. rewrite skip_ws_dumps by exact Hok.
  rewrite scan_once_dumps by (auto || (pose proof (vsize_le v); lia)). reflexivity.
Qed.

Lemma json_ok_asdict (j : Job) : job_ok j = true -> json_ok (asdict j) = true.
Proof.
  destruct j as [t d]. unfold job_ok. simpl job_type. simpl job_data.
  destruct t; try discriminate. destruct d; try discriminate. intros H.
  unfold asdict. rewrite json_ok_dict. simpl job_type. simpl job_data.
  apply andb_prop in H as [Ht Hd].
  change (bool_decide (NoDup [lit "type"; lit "data"]) &&
          (forallb scalar (lit "type") && json_ok (PStr s) &&
           (forallb scalar (lit "data") && json_ok (PDict kv) && true)) = true).
  rewrite Hd. simpl json_ok. rewrite Ht. reflexivity.
Qed.

(** [Job( **json.loads(json.dumps(asdict(job))))] gives the job back. *)
Lemma decode_job_encode_job (j : Job) : job_ok j = true -> decode_job (encode_job j) = Ok j.
Proof.
  intros Hj. unfold decode_job, encode_job. rewrite loads_dumps by (apply json_ok_asdict; exact Hj).
  destruct j as [t d]. reflexivity.
Qed.




Lemma set_store_twice (w : world) a b : set_store (set_store w a) b = set_store w b.
Proof. reflexivity. Qed.

Lemma set_store_id (w : world) : set_store w (store w) = w.
Proof. destruct w; reflexivity. Qed.

Lemma put_list_nil (st : gmap pystr rvalue) (k : pystr) :
  st !! k = None -> put_list st k [] = st.
Proof. intros H. apply delete_id. exact H. Qed.

Lemma rpush_put (w : world) (k v : pystr) (l : list pystr) :
  exists n, rpush k v (set_store w (put_list (store w) k l)) =
            (Ok n, set_store w (put_list (store w) k (l ++ [v]))).
Proof.
  unfold rpush. destruct l as [|x l]; cbn [store set_store put_list app].
  - rewrite lookup_delete_eq. eexists. rewrite set_store_twice, insert_delete_eq. reflexivity.
  - rewrite lookup_insert_eq. eexists. rewrite set_store_twice, insert_insert_eq. reflexivity.
Qed.

Lemma lpop_put (w : world) (k x : pystr) (l : list pystr) :
  lpop k (set_store w (put_list (store w) k (x :: l))) =
    (Ok (Some x), set_store w (put_list (store w) k l)).
Proof.
  unfold lpop. cbn [store set_store put_list]. rewrite lookup_insert_eq.
  destruct l as [|y l]; rewrite set_store_twice.
  - rewrite delete_insert_eq. reflexivity.
  - rewrite insert_insert_eq. reflexivity.
Qed.

Lemma enqueue_all_put (q : RedisJobQueue) (js : list Job) (w : world) (l : list pystr) :
  enqueue_all q js (set_store w (put_list (store w) (queue_name q) l)) =
    (Ok tt, set_store w (put_list (store w) (queue_name q) (l ++ map encode_job js))).
Proof.
  revert l. induction js as [|j js IH]; intros l; simpl.
  - rewrite app_nil_r. reflexivity.
  - destruct (rpush_put w (queue_name q) (encode_job j) l) as [n Hn].
    unfold enqueue. rewrite (bind_ok _ _ _ _ _ Hn), IH, <- app_assoc. reflexivity.
Qed.

Lemma dequeue_put (q : RedisJobQueue) (w : world) (j : Job) (l : list pystr) :
  job_ok j = true ->
  dequeue q (set_store w (put_list (store w) (queue_name q) (encode_job j :: l))) =
    (Ok (Some j), set_store w (put_list (store w) (queue_name q) l)).
Proof.
  intros Hj. unfold dequeue. rewrite (bind_ok _ _ _ _ _ (lpop_put _ _ _ _)).
  rewrite decode_job_encode_job by exact Hj. reflexivity.
Qed.

Lemma dequeue_n_put (q : RedisJobQueue) (w : world) (js : list Job) :
  Forall (fun j => job_ok j = true) js ->
  dequeue_n q (length js) (set_store w (put_list (store w) (queue_name q) (map encode_job js))) =
    (Ok (map Some js), set_store w (put_list (store w) (queue_name q) [])).
Proof.
  induction js as [|j js IH]; intros Hjs; [reflexivity|].
  apply Forall_cons in Hjs as [Hj Hjs].
  cbn [length dequeue_n map].
  rewrite (bind_ok _ _ _ _ _ (dequeue_put q w j _ Hj)).
  rewrite (bind_ok _ _ _ _ _ (IH Hjs)). reflexivity.
Qed.

End Floats.

(** ** Claims *)

(** C6: [dequeue] on an empty queue returns [None] at once, raises
    nothing, and leaves the state (hence the queue) unchanged. *)
Theorem dequeue_empty_queue (q : RedisJobQueue) (w : world) :
  store w !! queue_name q = None -> dequeue q w = (Ok None, w).
Proof. intros H. unfold dequeue. rewrite bind_unfold. unfold lpop. rewrite H. reflexivity. Qed.

(** C5: a job whose type is not ["add-note"] is a no-op, whatever its
    data: [process_job] returns normally with the state unchanged, and the
    worker loop goes on with its next pass. *)
Theorem process_job_unknown_type (j : Job) :
  job_type j <> PStr (lit "add-note") ->
  (forall w, process_job j w = (Ok tt, w)) /\
  (forall w w1, dequeue (mkQueue default_queue_name) w = (Ok (Some j), w1) ->
     worker_iter w = (Ok (Processed j), w1) /\ forall n, worker (S n) w = worker n w1).
Proof.
  intros Ht.
  assert (Hp : forall w, process_job j w = (Ok tt, w)).
  { intros w. unfold process_job. rewrite py_eq_str_false by exact Ht. reflexivity. }
  split; [exact Hp|].
  intros w w1 Hdq.
  assert (Hi : worker_iter w = (Ok (Processed j), w1)).
  { rewrite (worker_iter_job _ _ _ Hdq), Hp. reflexivity. }
  split; [exact Hi|]. intros n. simpl. exact (bind_ok _ _ _ _ _ Hi).
Qed.

(** C1: when the worker pops an add-note job whose data maps ["name"] to
    the string [name] and ["content"] to the string [content], afterwards
    [server.notes] maps [name] to [content], and when [server.redis_conn]
    is a connection (and the Redis key ["notes"] holds the mirror hash or
    nothing) the field [name] of that hash is [content]. *)
Theorem worker_add_note_sets_note (j : Job) (kv : list (pystr * pyval))
    (name content : pystr) (w w1 : world) :
  job_type j = PStr (lit "add-note") -> job_data j = PDict kv ->
  dict_get kv (lit "name") = Some (PStr name) ->
  dict_get kv (lit "content") = Some (PStr content) ->
  dequeue (mkQueue default_queue_name) w = (Ok (Some j), w1) ->
  (forall l, store w !! lit "notes" <> Some (RList l)) ->
  notes_get (notes (snd (worker_iter w))) (PStr name) = Some (PStr content) /\
  (redis_conn w = ConnSet ->
     exists h, store (snd (worker_iter w)) !! lit "notes" = Some (RHash h) /\
               dict_get h name = Some content).
Proof.
  intros Ht Hd Hn Hc Hdq Hm.
  destruct (dequeue_frame _ _ _ _ Hdq) as (Hno & Hrc & _ & _ & _ & Hst).
  assert (Hnotes : store w1 !! lit "notes" = store w !! lit "notes").
  { apply Hst. simpl. apply not_eq_sym. exact lit_jobs_notes. }
  rewrite (snd_worker_iter_job _ _ _ Hdq).
  rewrite (process_job_add_note j kv name content w1 Ht Hd Hn Hc). cbv zeta.
  rewrite Hrc. destruct (redis_conn w).
  - simpl. split; [apply notes_get_set | discriminate].
  - split; [|discriminate]. rewrite notify_step_notes. apply notes_get_set.
  - unfold hset at 1 2. cbn [store set_notes]. rewrite Hnotes.
    destruct (store w !! lit "notes") as [[l|h]|] eqn:E.
    + exfalso. exact (Hm l eq_refl).
    + rewrite notify_step_notes, notify_step_store. simpl. split; [apply notes_get_set|].
      intros _. exists (dict_set h name content). split.
      * apply lookup_insert_eq.
      * apply dict_get_set.
    + rewrite notify_step_notes, notify_step_store. simpl. split; [apply notes_get_set|].
      intros _. exists [(name, content)]. split.
      * apply lookup_insert_eq.
      * simpl. rewrite decide_True by reflexivity. reflexivity.
Qed.

(** C2 (as the code behaves): an add-note job whose data lacks ["name"]
    or ["content"] raises [KeyError] before any mutation, so
    [server.notes] is unchanged; [worker] does not catch it, so the pass
    that popped the job ends with the exception and the loop stops there
    (later jobs stay in the queue). *)
Theorem process_job_missing_key_raises (j : Job) (kv : list (pystr * pyval)) (w w1 : world) :
  job_type j = PStr (lit "add-note") -> job_data j = PDict kv ->
  dict_get kv (lit "name") = None \/ dict_get kv (lit "content") = None ->
  dequeue (mkQueue default_queue_name) w = (Ok (Some j), w1) ->
  process_job j w1 = (Raise KeyError, w1) /\ notes w1 = notes w /\
  worker_iter w = (Raise KeyError, w1) /\
  (forall n, worker (S n) w = (Raise KeyError, w1)).
Proof.
  intros Ht Hd Hmiss Hdq.
  assert (Hp : process_job j w1 = (Raise KeyError, w1)).
  { unfold process_job. rewrite Ht, py_eq_str_refl.
    destruct (dict_get kv (lit "name")) as [v|] eqn:En.
    - destruct Hmiss as [Hmiss|Hmiss]; [congruence|].
      rewrite (bind_ok _ _ _ v w1) by (unfold getitem_str; rewrite Hd, En; reflexivity).
      apply (bind_raise _ _ _ KeyError w1).
      unfold getitem_str. rewrite Hd, Hmiss. reflexivity.
    - apply (bind_raise _ _ _ KeyError w1).
      unfold getitem_str. rewrite Hd, En. reflexivity. }
  destruct (dequeue_frame _ _ _ _ Hdq) as (Hno & _).
  assert (Hi : worker_iter w = (Raise KeyError, w1)).
  { rewrite (worker_iter_job _ _ _ Hdq), Hp. reflexivity. }
  split; [exact Hp|]. split; [exact Hno|]. split; [exact Hi|].
  intros n. exact (worker_S_raise n _ _ _ Hi).
Qed.

(** C8 (as the code behaves): when the record at the head of the queue
    does not decode to a [Job], [LPOP] has already removed it and nothing
    puts it back; the decoding error is not caught or logged: it leaves
    [dequeue] and the worker loop, which stops. *)
Theorem worker_undecodable_record (w : world) (r : pystr) (rest : list pystr) (e : exn) :
  store w !! default_queue_name = Some (RList (r :: rest)) ->
  decode_job r = Raise e ->
  let w1 := set_store w (match rest with
                         | [] => delete default_queue_name (store w)
                         | _ :: _ => <[default_queue_name := RList rest]> (store w)
                         end) in
  dequeue (mkQueue default_queue_name) w = (Raise e, w1) /\
  (forall n, worker (S n) w = (Raise e, w1)).
Proof.
  intros Hq Hdec w1.
  assert (Hd : dequeue (mkQueue default_queue_name) w = (Raise e, w1)).
  { unfold dequeue. rewrite bind_unfold. unfold lpop. cbn [queue_name]. rewrite Hq.
    destruct rest; cbn; rewrite Hdec; reflexivity. }
  split; [exact Hd|].
  intros n. apply worker_S_raise. apply worker_iter_raise. exact Hd.
Qed.

(** C3: starting from an empty queue, [n] calls of [enqueue] followed by
    [n] calls of [dequeue] return the [n] jobs in the order they were
    pushed, and leave the queue empty again (for jobs whose type is a
    [str] and whose data is a JSON-representable [dict], with CPython's
    float [repr]). *)
Theorem queue_fifo (q : RedisJobQueue) (js : list Job) (w : world) :
  float_repr_spec ->
  Forall (fun j => job_ok j = true) js ->
  store w !! queue_name q = None ->
  (enqueue_all q js ≫= fun _ => dequeue_n q (length js)) w = (Ok (map Some js), w).
Proof.
  intros Hflt Hjs Hw.
  assert (E : set_store w (put_list (store w) (queue_name q) []) = w).
  { rewrite put_list_nil by exact Hw. apply set_store_id. }
  rewrite <- E at 1.
  rewrite (bind_ok _ _ _ _ _ (enqueue_all_put q js w [])). cbn [app].
  rewrite (dequeue_n_put Hflt q w js Hjs). rewrite E. reflexivity.
Qed.

(** C4: for a job whose type is a [str] and whose data is a
    JSON-representable [dict] (finite floats, strings of Unicode scalar
    values, distinct keys), decoding its encoding gives the same job back,
    and [enqueue] followed by [dequeue] on an empty queue returns an equal
    job and leaves the queue empty. *)
Theorem job_roundtrip (j : Job) :
  float_repr_spec -> job_ok j = true ->
  decode_job (encode_job j) = Ok j /\
  forall q w, store w !! queue_name q = None ->
    (enqueue q j ;; dequeue q) w = (Ok (Some j), w).
Proof.
  intros Hflt Hj. split; [exact (decode_job_encode_job Hflt j Hj)|].
  intros q w Hw.
  assert (E : set_store w (put_list (store w) (queue_name q) []) = w).
  { rewrite put_list_nil by exact Hw. apply set_store_id. }
  destruct (rpush_put w (queue_name q) (encode_job j) []) as [n Hn].
  cbn [app] in Hn. rewrite E in Hn. unfold enqueue.
  rewrite (bind_ok _ _ _ _ _ Hn).
  rewrite (dequeue_put Hflt q w j [] Hj). rewrite E. reflexivity.
Qed.

(** C7 (as the code behaves): [server.py] never assigns [redis_conn], so
    in a process where no mirror was set up, an add-note job writes
    [server.notes] and then raises [AttributeError] on reading
    [server.redis_conn]; the exception stops the worker loop.  Only when
    [redis_conn] was assigned [None] does the job finish normally. *)
Theorem process_job_redis_conn_unset (j : Job) (kv : list (pystr * pyval))
    (name content : pystr) (w : world) :
  job_type j = PStr (lit "add-note") -> job_data j = PDict kv ->
  dict_get kv (lit "name") = Some (PStr name) ->
  dict_get kv (lit "content") = Some (PStr content) ->
  redis_conn w = ConnUnset ->
  process_job j w =
    (Raise AttributeError, set_notes w (notes_set (notes w) (PStr name) (PStr content))) /\
  (forall w0 n, dequeue (mkQueue default_queue_name) w0 = (Ok (Some j), w) ->
     worker (S n) w0 =
       (Raise AttributeError, set_notes w (notes_set (notes w) (PStr name) (PStr content)))).
Proof.
  intros Ht Hd Hn Hc Hr.
  assert (Hp : process_job j w =
    (Raise AttributeError, set_notes w (notes_set (notes w) (PStr name) (PStr content)))).
  { rewrite (process_job_add_note j kv name content w Ht Hd Hn Hc). cbv zeta. rewrite Hr. reflexivity. }
  split; [exact Hp|]. intros w0 n Hdq.
  apply worker_S_raise. rewrite (worker_iter_job _ _ _ Hdq), Hp. reflexivity.
Qed.

(** C9 (as the code behaves): [worker.py] imports the module
    [mcp_platform.server] as [server], and that module has no attribute
    [request_context] (the session lives on the [Server] instance
    [server.server]); so an add-note job sets the note but never calls
    [send_resource_list_changed], even while a session is attached. *)
Theorem process_job_never_notifies (j : Job) (kv : list (pystr * pyval))
    (name content : pystr) (s : session) (w : world) :
  job_type j = PStr (lit "add-note") -> job_data j = PDict kv ->
  dict_get kv (lit "name") = Some (PStr name) ->
  dict_get kv (lit "content") = Some (PStr content) ->
  module_request_context w = None ->
  server_request_context w = Some s ->
  notes_get (notes (snd (process_job j w))) (PStr name) = Some (PStr content) /\
  sent (snd (process_job j w)) = sent w.
Proof.
  intros Ht Hd Hn Hc Hm _.
  rewrite (process_job_add_note j kv name content w Ht Hd Hn Hc). cbv zeta.
  unfold notify_step. destruct (redis_conn w); cbn [snd set_notes module_request_context].
  - split; [apply notes_get_set | reflexivity].
  - rewrite Hm. split; [apply notes_get_set | reflexivity].
  - unfold hset. cbn [store set_notes].
    destruct (store w !! lit "notes") as [[l|h]|]; cbn [snd set_store set_notes module_request_context];
      rewrite ?Hm; (split; [apply notes_get_set | reflexivity]).
Qed.

(** ** The worker reads only the queue named ["jobs"] *)

Create HintDb keeps.

Lemma keeps_bind {A B} (k : pystr) (l : list pystr) (m : M A) (f : A -> M B) :
  keeps_list k l m -> (forall a, keeps_list k l (f a)) -> keeps_list k l (m ≫= f).
Proof.
  intros Hm Hf w Hw. rewrite bind_unfold. specialize (Hm w Hw).
  destruct (m w) as [[a|e] w']; simpl in *; auto. apply Hf. exact Hm.
Qed.

Lemma keeps_ret {A} k l (a : A) : keeps_list k l (mret a).
Proof. intros w Hw. exact Hw. Qed.

Lemma keeps_raise {A} k l e : keeps_list k l (raise (A:=A) e).
Proof. intros w Hw. exact Hw. Qed.

Lemma keeps_skip k l : keeps_list k l skip.
Proof. intros w Hw. exact Hw. Qed.

Lemma keeps_gets {A} k l (f : world -> A) : keeps_list k l (gets f).
Proof. intros w Hw. exact Hw. Qed.

Lemma keeps_getitem k l v s : keeps_list k l (getitem_str v s).
Proof.
  unfold getitem_str. destruct v; try apply keeps_raise.
  destruct (dict_get kv s); [apply keeps_ret | apply keeps_raise].
Qed.

Lemma keeps_setitem k l a b : keeps_list k l (setitem_notes a b).
Proof.
  unfold setitem_notes. destruct (hashable a); [|apply keeps_raise].
  intros w Hw. exact Hw.
Qed.

Lemma keeps_conn k l : keeps_list k l redis_conn_is_set.
Proof. intros w Hw. unfold redis_conn_is_set. destruct (redis_conn w); exact Hw. Qed.

Lemma keeps_send k l s : keeps_list k l (send_resource_list_changed s).
Proof. intros w Hw. exact Hw. Qed.

Lemma keeps_hset k l f v : keeps_list k l (hset (lit "notes") f v).
Proof.
  intros w Hw. unfold hset.
  destruct (decide (k = lit "notes")) as [->|Hne].
  - rewrite Hw. exact Hw.
  - destruct (store w !! lit "notes") as [[]|]; simpl; auto;
      rewrite lookup_insert_ne by congruence; exact Hw.
Qed.

Lemma keeps_redis_hset k l a b : keeps_list k l (redis_hset (lit "notes") a b).
Proof.
  unfold redis_hset. destruct (redis_encode a), (redis_encode b);
    auto using keeps_hset, keeps_raise.
Qed.

Lemma keeps_dequeue k l q : queue_name q <> k -> keeps_list k l (dequeue q).
Proof.
  intros Hne w Hw. destruct (dequeue q w) as [r w'] eqn:E. simpl.
  destruct (dequeue_frame _ _ _ _ E) as (_ & _ & _ & _ & _ & Hst).
  rewrite Hst by congruence. exact Hw.
Qed.

#[local] Hint Resolve keeps_ret keeps_raise keeps_skip keeps_gets keeps_getitem
  keeps_setitem keeps_conn keeps_send keeps_redis_hset : keeps.

Lemma keeps_process_job k l j : keeps_list k l (process_job j).
Proof.
  unfold process_job. destruct (py_eq _ _); [|auto with keeps].
  apply keeps_bind; [auto with keeps|intros nm].
  apply keeps_bind; [auto with keeps|intros ct].
  apply keeps_bind; [auto with keeps|intros _].
  apply keeps_bind; [auto with keeps|intros conn].
  apply keeps_bind.
  - destruct conn; [apply keeps_bind; auto with keeps | auto with keeps].
  - intros _. apply keeps_bind; [auto with keeps|intros ctx].
    destruct ctx; auto with keeps.
Qed.

Lemma keeps_worker_iter k l : k <> default_queue_name -> keeps_list k l worker_iter.
Proof.
  intros Hne. unfold worker_iter. apply keeps_bind.
  - apply keeps_dequeue. simpl. congruence.
  - intros [j|]; [|apply keeps_ret]. apply keeps_bind; [apply keeps_process_job | intros; apply keeps_ret].
Qed.

(** C10: [worker] builds its queue with the default name ["jobs"]; a job
    pushed on a queue of any other name stays in that queue whatever
    number of passes the worker makes, so the worker never pops (and
    never runs) it. *)
Theorem worker_ignores_other_queues (name : pystr) (l : list pystr) (n : nat) :
  name <> default_queue_name -> keeps_list name l (worker n).
Proof.
  intros Hne. induction n as [|n IH]; simpl.
  - apply keeps_ret.
  - apply keeps_bind; [apply keeps_worker_iter; exact Hne | intros; exact IH].
Qed.

End Proofs.

(** * Properties of the rest of the code *)

Section MoreProofs.
Context {F : PyFloat}.


Lemma notes_get_none_set (d : list (pyval * pyval)) (n : pystr) (v : pyval) :
  notes_get d (PStr n) = None -> notes_set d (PStr n) v = d ++ [(PStr n, v)].
Proof.
  induction d as [|[k' v'] d IH]; simpl; [reflexivity|].
  destruct (py_eq k' (PStr n)); [discriminate|]. intros H. rewrite IH by exact H. reflexivity.
Qed.

Lemma notes_keys_set_some (d : list (pyval * pyval)) (n : pystr) (v v0 : pyval) :
  notes_get d (PStr n) = Some v0 -> map fst (notes_set d (PStr n) v) = map fst d.
Proof.
  induction d as [|[k' v'] d IH]; simpl; [discriminate|].
  destruct (py_eq k' (PStr n)); [reflexivity|]. intros H. simpl. rewrite IH by exact H. reflexivity.
Qed.

Lemma notes_del_set (d : list (pyval * pyval)) (n : pystr) (v : pyval) :
  notes_get d (PStr n) = None -> notes_del (notes_set d (PStr n) v) (PStr n) = d.
Proof.
  induction d as [|[k' v'] d IH]; cbn [notes_set notes_del notes_get].
  - rewrite py_eq_str_refl. reflexivity.
  - destruct (py_eq k' (PStr n)) eqn:E; [discriminate|]. intros H. cbn [notes_del]. rewrite E, IH by exact H.
    reflexivity.
Qed.





Lemma bd_add_note : bool_decide (lit "add-note" = lit "add-note") = true.
Proof. reflexivity. Qed.
Lemma bd_async_add : bool_decide (lit "add-note-async" = lit "add-note") = false.
Proof. reflexivity. Qed.
Lemma bd_async : bool_decide (lit "add-note-async" = lit "add-note-async") = true.
Proof. reflexivity. Qed.
Lemma bd_delete_add : bool_decide (lit "delete-note" = lit "add-note") = false.
Proof. reflexivity. Qed.
Lemma bd_delete_async : bool_decide (lit "delete-note" = lit "add-note-async") = false.
Proof. reflexivity. Qed.
Lemma bd_delete : bool_decide (lit "delete-note" = lit "delete-note") = true.
Proof. reflexivity. Qed.

Lemma bd_note : bool_decide (lit "note" = lit "note") = true.
Proof. reflexivity. Qed.

Lemma bd_args_ne {A} (args : list (pystr * A)) : args <> [] -> bool_decide (args = []) = false.
Proof. intros H. apply bool_decide_eq_false_2. exact H. Qed.

Lemma dict_get_ne {A} (args : list (pystr * A)) k v : dict_get args k = Some v -> args <> [].
Proof. destruct args; [discriminate | intros _; discriminate]. Qed.

Lemma truthy_str (n : pystr) : n <> [] -> truthy (PStr n) = true.
Proof. intros H. simpl. rewrite bool_decide_eq_false_2 by exact H. reflexivity. Qed.

Lemma notify_clients_some (w : world) (s : session) :
  server_request_context w = Some s ->
  notify_clients w = (Ok tt, set_sent w (s :: sent w)).
Proof. intros H. unfold notify_clients. rewrite bind_unfold. simpl. rewrite H. reflexivity. Qed.

(** X1: [handle_call_tool] with [arguments] [None] or an empty dict raises [ValueError] (Missing arguments) before anything else, for every tool name, and changes nothing. *)
Theorem handle_call_tool_no_arguments (jq : option RedisJobQueue) (name : pystr)
    (arguments : option (list (pystr * pyval))) (w : world) :
  arguments = None \/ arguments = Some [] ->
  handle_call_tool jq name arguments w = (Raise ValueError, w).
Proof. intros [-> | ->]; reflexivity. Qed.

(** X2: a tool name other than [add-note], [add-note-async] and [delete-note] raises [ValueError] and changes nothing. *)
Theorem handle_call_tool_unknown_tool (jq : option RedisJobQueue) (name : pystr)
    (args : list (pystr * pyval)) (w : world) :
  args <> [] ->
  name <> lit "add-note" -> name <> lit "add-note-async" -> name <> lit "delete-note" ->
  handle_call_tool jq name (Some args) w = (Raise ValueError, w).
Proof.
  intros Ha H1 H2 H3. unfold handle_call_tool. rewrite bd_args_ne by exact Ha.
  rewrite !bool_decide_eq_false_2 by assumption. reflexivity.
Qed.

Lemma add_note_eq (jq : option RedisJobQueue) (args : list (pystr * pyval))
    (nm c : pyval) (s : session) (w : world) :
  dict_get args (lit "name") = Some nm -> truthy nm = true -> hashable nm = true ->
  dict_get args (lit "content") = Some c -> truthy c = true ->
  server_request_context w = Some s ->
  handle_call_tool jq (lit "add-note") (Some args) w =
    (Ok [Added nm c], set_sent (set_notes w (notes_set (notes w) nm c)) (s :: sent w)).
Proof.
  intros Hn Hnt Hh Hc Hct Hs.
  unfold handle_call_tool. rewrite bd_args_ne by exact (dict_get_ne _ _ _ Hn).
  cbv zeta. rewrite bd_add_note, Hn, Hc. cbn [from_option id]. rewrite Hnt, Hct.
  cbn [negb orb].
  rewrite (bind_ok _ _ _ tt (set_notes w (notes_set (notes w) nm c)))
    by (unfold setitem_notes; rewrite Hh; reflexivity).
  cbv beta. rewrite bind_unfold, (notify_clients_some _ s) by exact Hs. reflexivity.
Qed.

(** X3: the synchronous [add-note] tool with a non-empty [str] name and a truthy content sets [server.notes[name] = content] and, inside a request, sends exactly one [resource_list_changed] notification to the requesting session; nothing else changes. *)
Theorem handle_call_tool_add_note_sets (jq : option RedisJobQueue) (args : list (pystr * pyval))
    (n : pystr) (c : pyval) (s : session) (w : world) :
  dict_get args (lit "name") = Some (PStr n) -> n <> [] ->
  dict_get args (lit "content") = Some c -> truthy c = true ->
  server_request_context w = Some s ->
  handle_call_tool jq (lit "add-note") (Some args) w =
    (Ok [Added (PStr n) c], set_sent (set_notes w (notes_set (notes w) (PStr n) c)) (s :: sent w)) /\
  notes_get (notes_set (notes w) (PStr n) c) (PStr n) = Some c.
Proof.
  intros Hn Hn0 Hc Hct Hs. split; [|apply notes_get_set].
  exact (add_note_eq jq args (PStr n) c s w Hn (truthy_str n Hn0) eq_refl Hc Hct Hs).
Qed.

(** X4: [add-note], and [add-note-async] once the job queue exists, raise [ValueError] when the name or the content is missing or falsy, and change nothing (no note, no queued job). *)
Theorem handle_call_tool_missing_field (jq : option RedisJobQueue) (tool : pystr)
    (args : list (pystr * pyval)) (w : world) :
  args <> [] ->
  tool = lit "add-note" \/ (tool = lit "add-note-async" /\ jq <> None) ->
  truthy (default PNone (dict_get args (lit "name"))) = false \/
  truthy (default PNone (dict_get args (lit "content"))) = false ->
  handle_call_tool jq tool (Some args) w = (Raise ValueError, w).
Proof.
  intros Ha Ht Hf. unfold handle_call_tool. rewrite bd_args_ne by exact Ha. cbv zeta.
  assert (Hb : negb (truthy (default PNone (dict_get args (lit "name")))) ||
               negb (truthy (default PNone (dict_get args (lit "content")))) = true).
  { destruct Hf as [-> | ->]; [reflexivity|]. apply orb_true_r. }
  destruct Ht as [-> | [-> Hq]].
  - rewrite bd_add_note, Hb. reflexivity.
  - rewrite bd_async_add, bd_async. destruct jq as [q|]; [|congruence]. rewrite Hb. reflexivity.
Qed.

(** X5: [add-note-async] before [main] has created the job queue raises [ValueError] and changes nothing. *)
Theorem handle_call_tool_no_job_queue (args : list (pystr * pyval)) (w : world) :
  args <> [] ->
  handle_call_tool None (lit "add-note-async") (Some args) w = (Raise ValueError, w).
Proof.
  intros Ha. unfold handle_call_tool. rewrite bd_args_ne by exact Ha. cbv zeta.
  rewrite bd_async_add, bd_async. reflexivity.
Qed.

(** X8: [delete-note] of a [str] name that is not a note raises [ValueError] and changes nothing. *)
Theorem handle_call_tool_delete_absent (jq : option RedisJobQueue) (args : list (pystr * pyval))
    (n : pystr) (w : world) :
  dict_get args (lit "name") = Some (PStr n) -> n <> [] ->
  notes_get (notes w) (PStr n) = None ->
  handle_call_tool jq (lit "delete-note") (Some args) w = (Raise ValueError, w).
Proof.
  intros Hn Hn0 Habs. unfold handle_call_tool. rewrite bd_args_ne by exact (dict_get_ne _ _ _ Hn).
  cbv zeta. rewrite bd_delete_add, bd_delete_async, bd_delete, Hn. cbn [from_option id].
  rewrite truthy_str by exact Hn0. cbn [negb].
  rewrite bind_unfold. unfold contains_notes. cbn [hashable]. unfold gets. rewrite Habs. reflexivity.
Qed.

Lemma delete_present_eq (jq : option RedisJobQueue) (args : list (pystr * pyval))
    (n : pystr) (v : pyval) (s : session) (w : world) :
  dict_get args (lit "name") = Some (PStr n) -> n <> [] ->
  notes_get (notes w) (PStr n) = Some v ->
  server_request_context w = Some s ->
  handle_call_tool jq (lit "delete-note") (Some args) w =
    (Ok [Deleted (PStr n)], set_sent (set_notes w (notes_del (notes w) (PStr n))) (s :: sent w)).
Proof.
  intros Hn Hn0 Hv Hs.
  unfold handle_call_tool. rewrite bd_args_ne by exact (dict_get_ne _ _ _ Hn).
  cbv zeta. rewrite bd_delete_add, bd_delete_async, bd_delete, Hn. cbn [from_option id].
  rewrite truthy_str by exact Hn0. cbn [negb].
  rewrite (bind_ok _ _ _ true w) by (unfold contains_notes, gets; cbn [hashable]; rewrite Hv; reflexivity).
  cbv beta. rewrite (bind_ok _ _ _ tt (set_notes w (notes_del (notes w) (PStr n))))
    by (unfold delitem_notes; cbn [hashable]; rewrite Hv; reflexivity).
  cbv beta. rewrite bind_unfold, (notify_clients_some _ s) by exact Hs. reflexivity.
Qed.


(** X10: [add-note] of a fresh [str] name followed by [delete-note] of the same name gives [server.notes] back exactly as it was, after two notifications. *)
Theorem add_then_delete_note (jq : option RedisJobQueue) (args_add args_del : list (pystr * pyval))
    (n : pystr) (c : pyval) (s : session) (w : world) :
  dict_get args_add (lit "name") = Some (PStr n) -> n <> [] ->
  dict_get args_add (lit "content") = Some c -> truthy c = true ->
  dict_get args_del (lit "name") = Some (PStr n) ->
  notes_get (notes w) (PStr n) = None ->
  server_request_context w = Some s ->
  (handle_call_tool jq (lit "add-note") (Some args_add) ≫= fun _ =>
     handle_call_tool jq (lit "delete-note") (Some args_del)) w =
    (Ok [Deleted (PStr n)], set_sent w (s :: s :: sent w)).
Proof.
  intros Hn Hn0 Hc Hct Hd Habs Hs.
  rewrite (bind_ok _ _ _ _ _ (add_note_eq jq args_add (PStr n) c s w Hn (truthy_str n Hn0) eq_refl Hc Hct Hs)).
  rewrite (delete_present_eq jq args_del n c s _ Hd Hn0) by (cbn [notes set_sent set_notes]; apply notes_get_set || exact Hs).
  cbn [notes set_sent set_notes sent]. rewrite notes_del_set by exact Habs.
  destruct w; reflexivity.
Qed.

(** X11: after [add-note] of a [str] name, [handle_list_resources] lists the names as before, with the new name appended at the end when it was not already a note. *)
Theorem list_resources_after_add_note (jq : option RedisJobQueue) (args : list (pystr * pyval))
    (n : pystr) (c : pyval) (s : session) (w : world) :
  dict_get args (lit "name") = Some (PStr n) -> n <> [] ->
  dict_get args (lit "content") = Some c -> truthy c = true ->
  server_request_context w = Some s ->
  fst (handle_list_resources (snd (handle_call_tool jq (lit "add-note") (Some args) w))) =
    Ok (match notes_get (notes w) (PStr n) with
        | Some _ => map fst (notes w)
        | None => map fst (notes w) ++ [PStr n]
        end).
Proof.
  intros Hn Hn0 Hc Hct Hs.
  rewrite (add_note_eq jq args (PStr n) c s w Hn (truthy_str n Hn0) eq_refl Hc Hct Hs).
  unfold handle_list_resources, gets. cbn [snd fst notes set_sent set_notes].
  destruct (notes_get (notes w) (PStr n)) as [v0|] eqn:E.
  - rewrite (notes_keys_set_some _ _ _ v0) by exact E. reflexivity.
  - rewrite notes_get_none_set by exact E. rewrite map_app. reflexivity.
Qed.

(** X12: [handle_read_resource] raises [ValueError] for a scheme other than [note] and for a URI without a path, and [KeyError] when no note has the path's name. *)
Theorem handle_read_resource_errors (w : world) :
  (forall scheme path, scheme <> lit "note" -> handle_read_resource scheme path w = (Raise ValueError, w)) /\
  handle_read_resource (lit "note") None w = (Raise ValueError, w) /\
  (forall p, notes_get (notes w) (PStr (lstrip_slash p)) = None ->
     handle_read_resource (lit "note") (Some p) w = (Raise KeyError, w)).
Proof.
  split; [|split].
  - intros scheme path H. unfold handle_read_resource. rewrite bool_decide_eq_false_2 by exact H. reflexivity.
  - reflexivity.
  - intros p H. unfold handle_read_resource, getitem_notes. rewrite bd_note. cbn [negb hashable]. rewrite H. reflexivity.
Qed.

(** X13: after [add-note] of a [str] name, reading a [note] URI whose path is the name with leading slashes returns the content. *)
Theorem read_resource_after_add_note (jq : option RedisJobQueue) (args : list (pystr * pyval))
    (n : pystr) (c : pyval) (s : session) (w : world) (p : pystr) :
  dict_get args (lit "name") = Some (PStr n) -> n <> [] ->
  dict_get args (lit "content") = Some c -> truthy c = true ->
  server_request_context w = Some s ->
  lstrip_slash p = n ->
  fst (handle_read_resource (lit "note") (Some p) (snd (handle_call_tool jq (lit "add-note") (Some args) w)))
    = Ok c.
Proof.
  intros Hn Hn0 Hc Hct Hs Hp.
  rewrite (add_note_eq jq args (PStr n) c s w Hn (truthy_str n Hn0) eq_refl Hc Hct Hs).
  unfold handle_read_resource, getitem_notes. rewrite bd_note. cbn [negb snd hashable notes set_sent set_notes].
  rewrite Hp, notes_get_set. reflexivity.
Qed.

Lemma lstrip_slash_head (p m : pystr) : lstrip_slash p <> 47 :: m.
Proof.
  induction p as [|x p IH]; [discriminate|]. simpl.
  destruct (N.eq_dec x 47) as [->|Hx]; [exact IH|].
  destruct x as [|x]; [discriminate|].
  repeat (destruct x as [x|x|]; try (intros H; injection H as H1 _; discriminate H1)).
  all: try (intros H; injection H as H1 _; lia).
  all: try exact IH.
Qed.

(** X14: a note whose name starts with a slash can never be read back: [lstrip] removes every leading slash of the path, so every [note] URI raises [KeyError] when that is the only note. *)
Theorem read_resource_slash_name (m : pystr) (c : pyval) (w : world) :
  notes w = [(PStr (47 :: m), c)] ->
  forall p, handle_read_resource (lit "note") (Some p) w = (Raise KeyError, w).
Proof.
  intros Hw p. unfold handle_read_resource, getitem_notes. rewrite bd_note. cbn [negb hashable]. rewrite Hw. simpl.
  rewrite bool_decide_eq_false_2; [reflexivity|].
  intros H. apply (lstrip_slash_head p m). symmetry. exact H.
Qed.

Lemma job_ok_add_note (n c : pyval) :
  json_ok n = true -> json_ok c = true -> job_ok (add_note_job n c) = true.
Proof. intros Hn Hc. unfold job_ok, add_note_job. cbn [job_type job_data]. simpl. rewrite Hn, Hc. reflexivity. Qed.

Lemma handle_async_eq (q : RedisJobQueue) (args : list (pystr * pyval)) (n c : pyval)
    (l : list pystr) (w : world) :
  dict_get args (lit "name") = Some n -> dict_get args (lit "content") = Some c ->
  truthy n = true -> truthy c = true ->
  store w !! queue_name q = Some (RList l) \/ (store w !! queue_name q = None /\ l = []) ->
  handle_call_tool (Some q) (lit "add-note-async") (Some args) w =
    (Ok [Queued n], set_store w (<[queue_name q := RList (l ++ [encode_job (add_note_job n c)])]> (store w))).
Proof.
  intros Hn Hc Hnt Hct Hq. unfold handle_call_tool. rewrite bd_args_ne by exact (dict_get_ne _ _ _ Hn).
  cbv zeta. rewrite bd_async_add, bd_async, Hn, Hc. cbn [from_option id]. rewrite Hnt, Hct. cbn [negb orb].
  rewrite bind_unfold. unfold enqueue, rpush. cbn [queue_name].
  destruct Hq as [Hq | [Hq ->]]; rewrite Hq; reflexivity.
Qed.

(** X6: [add-note-async] with a truthy JSON-representable name and content pushes exactly one record at the tail of the job queue, touches neither [server.notes] nor the sessions, and the record decodes to the job [add-note] with data [{name, content}]. *)
Theorem handle_call_tool_add_note_async_enqueues (q : RedisJobQueue) (args : list (pystr * pyval))
    (n c : pyval) (l : list pystr) (w : world) :
  float_repr_spec ->
  dict_get args (lit "name") = Some n -> dict_get args (lit "content") = Some c ->
  truthy n = true -> truthy c = true -> json_ok n = true -> json_ok c = true ->
  store w !! queue_name q = Some (RList l) \/ (store w !! queue_name q = None /\ l = []) ->
  handle_call_tool (Some q) (lit "add-note-async") (Some args) w =
    (Ok [Queued n], set_store w (<[queue_name q := RList (l ++ [encode_job (add_note_job n c)])]> (store w))) /\
  decode_job (encode_job (add_note_job n c)) = Ok (add_note_job n c).
Proof.
  intros Hflt Hn Hc Hnt Hct Hnj Hcj Hq. split; [exact (handle_async_eq q args n c l w Hn Hc Hnt Hct Hq)|].
  apply (decode_job_encode_job Hflt). apply job_ok_add_note; assumption.
Qed.

Lemma hset_notes (k f v : pystr) (w : world) : notes (snd (hset k f v w)) = notes w.
Proof. unfold hset. destruct (store w !! k) as [[]|]; reflexivity. Qed.

Lemma process_job_add_note_notes (j : Job) (kv : list (pystr * pyval)) (name content : pystr)
    (w : world) :
  job_type j = PStr (lit "add-note") -> job_data j = PDict kv ->
  dict_get kv (lit "name") = Some (PStr name) ->
  dict_get kv (lit "content") = Some (PStr content) ->
  notes (snd (process_job j w)) = notes_set (notes w) (PStr name) (PStr content).
Proof.
  intros Ht Hd Hn Hc. rewrite (process_job_add_note j kv name content w Ht Hd Hn Hc). cbv zeta.
  destruct (redis_conn w).
  - reflexivity.
  - rewrite notify_step_notes. reflexivity.
  - destruct (hset (lit "notes") name content _) as [[a|e] w3] eqn:E;
      pose proof (hset_notes (lit "notes") name content
                   (set_notes w (notes_set (notes w) (PStr name) (PStr content)))) as Hh;
      rewrite E in Hh; simpl in Hh.
    + rewrite notify_step_notes. exact Hh.
    + exact Hh.
Qed.

Lemma set_store_put_single (w : world) (k r : pystr) :
  store w !! k = None ->
  set_store w (<[k := RList ([] ++ [r])]> (store w)) = set_store w (put_list (store w) k [r]).
Proof. reflexivity. Qed.

(** X7: after [add-note-async] on an empty [jobs] queue, [server.notes] is still unchanged, and the next pass of the worker sets [server.notes[name] = content] (whatever [redis_conn] is). *)
Theorem add_note_async_then_worker (args : list (pystr * pyval)) (n c : pystr) (w : world) :
  float_repr_spec ->
  dict_get args (lit "name") = Some (PStr n) -> dict_get args (lit "content") = Some (PStr c) ->
  n <> [] -> c <> [] -> forallb scalar n = true -> forallb scalar c = true ->
  store w !! default_queue_name = None ->
  notes (snd (handle_call_tool (Some (mkQueue default_queue_name)) (lit "add-note-async") (Some args) w))
    = notes w /\
  notes_get (notes (snd (worker_iter
    (snd (handle_call_tool (Some (mkQueue default_queue_name)) (lit "add-note-async") (Some args) w)))))
    (PStr n) = Some (PStr c).
Proof.
  intros Hflt Hn Hc Hn0 Hc0 Hns Hcs Hq.
  rewrite (handle_async_eq (mkQueue default_queue_name) args (PStr n) (PStr c) [] w Hn Hc
             (truthy_str n Hn0) (truthy_str c Hc0) (or_intror (conj Hq eq_refl))).
  cbn [snd queue_name]. split; [reflexivity|].
  rewrite set_store_put_single by exact Hq.
  assert (Hj : job_ok (add_note_job (PStr n) (PStr c)) = true)
    by (apply job_ok_add_note; simpl; assumption).
  pose proof (dequeue_put Hflt (mkQueue default_queue_name) w _ [] Hj) as Hd. cbn [queue_name] in Hd.
  rewrite (snd_worker_iter_job _ _ _ Hd).
  rewrite (process_job_add_note_notes _ [(lit "name", PStr n); (lit "content", PStr c)] n c)
    by reflexivity.
  apply notes_get_set.
Qed.


Lemma bd_summarize : bool_decide (lit "summarize-notes" = lit "summarize-notes") = true.
Proof. reflexivity. Qed.

(** X15: [handle_get_prompt] with a prompt name other than [summarize-notes] raises [ValueError]. *)
Theorem get_prompt_unknown (str_container : pyval -> pystr) (name : pystr)
    (arguments : option (list (pystr * pystr))) (w : world) :
  name <> lit "summarize-notes" ->
  handle_get_prompt str_container name arguments w = (Raise ValueError, w).
Proof.
  intros H. unfold handle_get_prompt. rewrite bool_decide_eq_false_2 by exact H. reflexivity.
Qed.

Lemma join_lines_snoc (l : list pystr) (x : pystr) : exists pre, join_lines (l ++ [x]) = pre ++ x.
Proof.
  induction l as [|y l IH]; [exists []; reflexivity|].
  destruct IH as [pre Hpre]. cbn [app].
  destruct (l ++ [x]) as [|z r] eqn:E; [destruct l; discriminate|].
  exists (y ++ [10] ++ pre).
  change (join_lines (y :: z :: r)) with (y ++ [10] ++ join_lines (z :: r)).
  rewrite Hpre, !app_assoc. reflexivity.
Qed.

(** X16: after [add-note] of a fresh [str] name and [str] content, the [summarize-notes] prompt text ends with the line [- name: content]. *)
Theorem get_prompt_after_add_note (str_container : pyval -> pystr) (jq : option RedisJobQueue)
    (args : list (pystr * pyval)) (n c : pystr) (s : session) (w : world)
    (arguments : option (list (pystr * pystr))) :
  dict_get args (lit "name") = Some (PStr n) -> n <> [] ->
  dict_get args (lit "content") = Some (PStr c) -> c <> [] ->
  server_request_context w = Some s ->
  notes_get (notes w) (PStr n) = None ->
  exists pre,
    fst (handle_get_prompt str_container (lit "summarize-notes") arguments
           (snd (handle_call_tool jq (lit "add-note") (Some args) w))) =
      Ok (pre ++ lit "- " ++ n ++ lit ": " ++ c).
Proof.
  intros Hn Hn0 Hc Hc0 Hs Habs.
  rewrite (add_note_eq jq args (PStr n) (PStr c) s w Hn (truthy_str n Hn0) eq_refl Hc (truthy_str c Hc0) Hs).
  cbn [snd]. unfold handle_get_prompt. rewrite bd_summarize. cbn [negb].
  unfold gets. cbn [fst notes set_sent set_notes].
  rewrite notes_get_none_set by exact Habs. rewrite map_app.
  destruct (join_lines_snoc
              (map (fun '(n0, c0) => lit "- " ++ py_str str_container n0 ++ lit ": " ++ py_str str_container c0)
                   (notes w))
              (lit "- " ++ n ++ lit ": " ++ c)) as [pre Hpre].
  eexists. cbn [map]. cbn [py_str]. rewrite Hpre, !app_assoc. reflexivity.
Qed.

Lemma dequeue_none (q : RedisJobQueue) (w : world) :
  store w !! queue_name q = None -> dequeue q w = (Ok None, w).
Proof. intros H. unfold dequeue. rewrite bind_unfold. unfold lpop. rewrite H. reflexivity. Qed.

(** X17: while the [jobs] queue is empty, any number of worker passes return normally and change nothing. *)
Theorem worker_idle (n : nat) (w : world) :
  store w !! default_queue_name = None -> worker n w = (Ok tt, w).
Proof.
  intros H. induction n as [|n IH]; [reflexivity|]. cbn [worker].
  rewrite (bind_ok _ _ _ Slept w); [exact IH|].
  unfold worker_iter. rewrite (bind_ok _ _ _ None w); [reflexivity|].
  apply dequeue_none. exact H.
Qed.

Lemma set_notes_store (w : world) d st :
  set_notes (set_store w st) d = set_store (set_notes w d) st.
Proof. reflexivity. Qed.

Lemma set_notes_twice (w : world) d d' st :
  set_notes (set_store (set_notes w d) st) d' = set_notes (set_store w st) d'.
Proof. reflexivity. Qed.

(** X18: with [redis_conn] set to [None], [n] worker passes over a queue of [n] add-note jobs with [str] names and contents apply them to [server.notes] in queue order and leave the queue empty. *)
Theorem worker_applies_queued_notes (ps : list (pystr * pystr)) (w : world) :
  float_repr_spec ->
  Forall (fun p => forallb scalar p.1 && forallb scalar p.2 = true) ps ->
  redis_conn w = ConnNone -> module_request_context w = None ->
  worker (length ps)
    (set_store w (put_list (store w) default_queue_name
       (map (fun p => encode_job (add_note_job (PStr p.1) (PStr p.2))) ps))) =
  (Ok tt, set_notes (set_store w (put_list (store w) default_queue_name []))
            (fold_left (fun d p => notes_set d (PStr p.1) (PStr p.2)) ps (notes w))).
Proof.
  intros Hflt. revert w. induction ps as [|[n c] ps IH]; intros w Hps Hr Hm.
  - destruct w; reflexivity.
  - apply Forall_cons in Hps as [Hp Hps]. cbn [fst snd] in Hp. apply andb_prop in Hp as [Hn Hc].
    assert (Hj : job_ok (add_note_job (PStr n) (PStr c)) = true)
      by (apply job_ok_add_note; simpl; assumption).
    cbn [length worker map fst snd].
    pose proof (dequeue_put Hflt (mkQueue default_queue_name) w _
                  (map (fun p => encode_job (add_note_job (PStr p.1) (PStr p.2))) ps) Hj) as Hd.
    cbn [queue_name] in Hd.
    set (w1 := set_store w (put_list (store w) default_queue_name
                 (map (fun p => encode_job (add_note_job (PStr p.1) (PStr p.2))) ps))) in Hd.
    assert (Hp : process_job (add_note_job (PStr n) (PStr c)) w1 =
                 (Ok tt, set_notes w1 (notes_set (notes w) (PStr n) (PStr c)))).
    { rewrite (process_job_add_note _ [(lit "name", PStr n); (lit "content", PStr c)] n c)
        by reflexivity.
      cbv zeta. unfold w1. cbn [redis_conn set_store notes]. rewrite Hr.
      unfold notify_step. cbn [module_request_context set_notes set_store]. rewrite Hm. reflexivity. }
    rewrite (bind_ok _ _ _ (Processed (add_note_job (PStr n) (PStr c))) _)
      by (rewrite (worker_iter_job _ _ _ Hd), Hp; reflexivity).
    unfold w1. rewrite set_notes_store.
    pose proof (IH (set_notes w (notes_set (notes w) (PStr n) (PStr c))) Hps Hr Hm) as IH'.
    cbn [store set_notes notes] in IH'. rewrite IH'.
    cbn [fold_left notes set_notes]. reflexivity.
Qed.

(** X19: when the mirror key [notes] holds a Redis list, an add-note job sets [server.notes] and then raises [ResponseError] from [HSET]: the in-memory note is kept but the error ends the job. *)
Theorem process_job_mirror_wrongtype (j : Job) (kv : list (pystr * pyval)) (name content : pystr)
    (l : list pystr) (w : world) :
  job_type j = PStr (lit "add-note") -> job_data j = PDict kv ->
  dict_get kv (lit "name") = Some (PStr name) ->
  dict_get kv (lit "content") = Some (PStr content) ->
  redis_conn w = ConnSet -> store w !! lit "notes" = Some (RList l) ->
  process_job j w =
    (Raise ResponseError, set_notes w (notes_set (notes w) (PStr name) (PStr content))).
Proof.
  intros Ht Hd Hn Hc Hr Hl. rewrite (process_job_add_note j kv name content w Ht Hd Hn Hc). cbv zeta.
  rewrite Hr. unfold hset. cbn [store set_notes]. rewrite Hl. reflexivity.
Qed.

(** X20: a record holding [json.dumps] of a JSON-representable value decodes to a job exactly when the value is a dict whose keys are [type] and [data]; any other value raises [TypeError], not a decoding error. *)
Theorem decode_job_dumps (v : pyval) :
  float_repr_spec -> json_ok v = true ->
  decode_job (dumps v) = match job_of_kwargs v with Some j => Ok j | None => Raise TypeError end.
Proof. intros Hflt Hv. unfold decode_job. rewrite (loads_dumps Hflt v Hv). reflexivity. Qed.

(** X21: a [RedisJobQueue] whose key holds a Redis hash (as the mirror key [notes] does) fails every [enqueue] and [dequeue] with [ResponseError] and changes nothing. *)
Theorem queue_on_hash_key (q : RedisJobQueue) (j : Job) (h : list (pystr * pystr)) (w : world) :
  store w !! queue_name q = Some (RHash h) ->
  enqueue q j w = (Raise ResponseError, w) /\ dequeue q w = (Raise ResponseError, w).
Proof.
  intros H. split.
  - unfold enqueue, rpush. rewrite H. reflexivity.
  - unfold dequeue. rewrite bind_unfold. unfold lpop. rewrite H. reflexivity.
Qed.


Lemma hex_digit_printable (x : N) : printable (hex_digit (N.land x 15)) = true.
Proof.
  rewrite land_15. pose proof (N.mod_lt x 16 ltac:(lia)) as H. unfold printable, hex_digit.
  set (m := x mod 16) in *.
  destruct (N.ltb_spec m 10); apply andb_true_intro; split; apply N.leb_le; lia.
Qed.

Lemma escape_char_printable (c : N) : forallb printable (escape_char c) = true.
Proof.
  unfold escape_char. destruct (s_char c) eqn:E.
  - unfold s_char in E. apply andb_prop in E as [E _]. apply andb_prop in E as [E _].
    apply andb_prop in E as [E1 E2]. simpl. unfold printable. rewrite E1, E2. reflexivity.
  - unfold escape_unichar.
    repeat match goal with |- context [if ?b then _ else _] => destruct b; [try reflexivity|] end;
      unfold hex4; simpl; rewrite !hex_digit_printable; reflexivity.
Qed.

Lemma encode_str_printable (s : pystr) : forallb printable (encode_str s) = true.
Proof.
  unfold encode_str. rewrite !forallb_app. simpl. rewrite andb_true_r.
  induction s as [|c s IH]; [reflexivity|]. simpl. rewrite forallb_app, escape_char_printable. exact IH.
Qed.

Lemma int_repr_printable (z : Z) : forallb printable (int_repr z) = true.
Proof.
  assert (Hd : forall u, forallb printable (uint_chars u) = true).
  { intros u. pose proof (uint_chars_digits u) as H. induction (uint_chars u) as [|d ds IH]; [reflexivity|].
    simpl in H |- *. apply andb_prop in H as [H1 H2]. unfold is_digit in H1. unfold printable.
    apply andb_prop in H1 as [H1a%N.leb_le H1b%N.leb_le].
    rewrite (proj2 (N.leb_le 32 d)) by lia. rewrite (proj2 (N.leb_le d 126)) by lia. exact (IH H2). }
  unfold int_repr. destruct (z <? 0)%Z; [simpl; apply Hd | apply Hd].
Qed.

(** X22: the text [json.dumps] writes is printable ASCII (no newline or control character), whatever the strings hold, provided the float texts are. *)
Theorem dumps_printable (v : pyval) :
  (forall f, forallb printable (float_text f) = true) ->
  forallb printable (dumps v) = true.
Proof.
  intros Hf. revert v. refine (pyval_nested_ind _ _ _ _ _ _ _ _).
  - reflexivity.
  - intros []; reflexivity.
  - intros z. apply int_repr_printable.
  - intros f. apply Hf.
  - intros s. apply encode_str_printable.
  - intros l HF. destruct l as [|x xs]; [reflexivity|].
    rewrite dumps_list, !forallb_app. apply Forall_cons in HF as [Hx HF]. simpl forallb at 1.
    rewrite Hx. simpl.
    induction xs as [|y ys IH]; [reflexivity|].
    apply Forall_cons in HF as [Hy HF]. simpl. rewrite !forallb_app, Hy. exact (IH HF).
  - intros kv HF. destruct kv as [|[k x] kvs]; [reflexivity|].
    rewrite dumps_dict, !forallb_app. apply Forall_cons in HF as [Hx HF]. simpl in Hx.
    rewrite encode_str_printable, Hx. simpl.
    induction kvs as [|[k' y] ys IH]; [reflexivity|].
    apply Forall_cons in HF as [Hy HF]. simpl in Hy. cbn [dumps_dict_items].
    rewrite !forallb_app, encode_str_printable, Hy, (IH HF). reflexivity.
Qed.

End MoreProofs.

(** * The properties on concrete inputs *)

Section Instances.
#[local] Existing Instance zero_float.

Lemma zero_float_repr : float_repr_spec.
Proof. intros [] _. split; [vm_compute; reflexivity | reflexivity]. Qed.

(** C1 on the job [{name: "w", content: "c"}], with a mirror connection
    and an empty keyspace besides the queue. *)
Lemma worker_add_note_sets_note_witness :
  notes_get (notes (snd (worker_iter (ex_world ConnSet None (ex_queue [encode_job ex_note_job])))))
    (PStr (lit "w")) = Some (PStr (lit "c")) /\
  (redis_conn (ex_world ConnSet None (ex_queue [encode_job ex_note_job])) = ConnSet ->
   exists h, store (snd (worker_iter (ex_world ConnSet None (ex_queue [encode_job ex_note_job]))))
               !! lit "notes" = Some (RHash h) /\ dict_get h (lit "w") = Some (lit "c")).
Proof.
  apply (worker_add_note_sets_note ex_note_job
           [(lit "name", PStr (lit "w")); (lit "content", PStr (lit "c"))] (lit "w") (lit "c")
           (ex_world ConnSet None (ex_queue [encode_job ex_note_job]))
           (snd (dequeue (mkQueue default_queue_name)
                   (ex_world ConnSet None (ex_queue [encode_job ex_note_job])))));
    [reflexivity | reflexivity | vm_compute; reflexivity | vm_compute; reflexivity
    | vm_compute; reflexivity | intros l; vm_compute; discriminate].
Defined.

(** C2 on the job [{name: "x"}]. *)
Lemma process_job_missing_key_raises_witness :
  worker_iter (ex_world ConnNone None (ex_queue [encode_job ex_bad_job])) =
    (Raise KeyError, ex_world ConnNone None ∅).
Proof.
  refine (proj1 (proj2 (proj2 (process_job_missing_key_raises ex_bad_job
           [(lit "name", PStr (lit "x"))]
           (ex_world ConnNone None (ex_queue [encode_job ex_bad_job]))
           (ex_world ConnNone None ∅) _ _ _ _))));
    [reflexivity | reflexivity | right; vm_compute; reflexivity | vm_compute; reflexivity].
Defined.

(** C2 fails: with the job [{name: "x"}] queued before a valid add-note
    job, two passes of the worker end in [KeyError]; the valid job is
    still in the queue and [server.notes] is still empty. *)
Lemma worker_stops_on_missing_key :
  fst (worker 2 (ex_world ConnNone None (ex_queue [encode_job ex_bad_job; encode_job ex_note_job])))
    = Raise KeyError /\
  notes (snd (worker 2 (ex_world ConnNone None (ex_queue [encode_job ex_bad_job; encode_job ex_note_job]))))
    = [] /\
  store (snd (worker 2 (ex_world ConnNone None (ex_queue [encode_job ex_bad_job; encode_job ex_note_job]))))
    !! default_queue_name = Some (RList [encode_job ex_note_job]).
Proof. split; [|split]; vm_compute; reflexivity. Qed.

(** C3 on three jobs pushed on an empty queue. *)
Lemma queue_fifo_witness :
  (enqueue_all (mkQueue default_queue_name) [ex_note_job; ex_other_job; ex_bad_job] ≫= fun _ =>
     dequeue_n (mkQueue default_queue_name) (length [ex_note_job; ex_other_job; ex_bad_job]))
    (ex_world ConnNone None ∅) =
  (Ok (map Some [ex_note_job; ex_other_job; ex_bad_job]), ex_world ConnNone None ∅).
Proof.
  apply queue_fifo; [exact zero_float_repr | | vm_compute; reflexivity].
  repeat constructor; vm_compute; reflexivity.
Defined.

(** C4 on a job with nested data, a float and non-ASCII text. *)
Lemma job_roundtrip_witness :
  decode_job (encode_job ex_other_job) = Ok ex_other_job /\
  (enqueue (mkQueue default_queue_name) ex_other_job ;; dequeue (mkQueue default_queue_name))
    (ex_world ConnNone None ∅) = (Ok (Some ex_other_job), ex_world ConnNone None ∅).
Proof.
  destruct (job_roundtrip ex_other_job zero_float_repr) as [H1 H2];
    [vm_compute; reflexivity|].
  split; [exact H1 | apply H2; vm_compute; reflexivity].
Defined.

(** C5 on a job of type ["resize"]. *)
Lemma process_job_unknown_type_witness :
  process_job ex_other_job (ex_world ConnSet (Some 7%nat) ∅) =
    (Ok tt, ex_world ConnSet (Some 7%nat) ∅) /\
  worker_iter (ex_world ConnNone None (ex_queue [encode_job ex_other_job])) =
    (Ok (Processed ex_other_job), ex_world ConnNone None ∅).
Proof.
  destruct (process_job_unknown_type ex_other_job) as [H1 H2]; [vm_compute; discriminate|].
  split; [apply H1 | apply H2; vm_compute; reflexivity].
Defined.

(** C6 on an empty keyspace. *)
Lemma dequeue_empty_queue_witness :
  dequeue (mkQueue default_queue_name) (ex_world ConnNone None ∅) =
    (Ok None, ex_world ConnNone None ∅).
Proof. apply dequeue_empty_queue. vm_compute. reflexivity. Defined.

(** C7 on the job [{name: "w", content: "c"}] in a process where
    [server.redis_conn] was never assigned. *)
Lemma process_job_redis_conn_unset_witness :
  worker 1 (ex_world ConnUnset None (ex_queue [encode_job ex_note_job])) =
    (Raise AttributeError,
     set_notes (ex_world ConnUnset None ∅) [(PStr (lit "w"), PStr (lit "c"))]).
Proof.
  refine (proj2 (process_job_redis_conn_unset ex_note_job
           [(lit "name", PStr (lit "w")); (lit "content", PStr (lit "c"))] (lit "w") (lit "c")
           (ex_world ConnUnset None ∅) _ _ _ _ _) _ 0%nat _);
    [reflexivity | reflexivity | vm_compute; reflexivity | vm_compute; reflexivity
    | reflexivity | vm_compute; reflexivity].
Defined.

(** C8 on the record ["garbage"] ahead of a valid job. *)
Lemma worker_undecodable_record_witness :
  dequeue (mkQueue default_queue_name)
    (ex_world ConnNone None (ex_queue [lit "garbage"; encode_job ex_note_job])) =
    (Raise JSONDecodeError, ex_world ConnNone None (ex_queue [encode_job ex_note_job])) /\
  worker 3 (ex_world ConnNone None (ex_queue [lit "garbage"; encode_job ex_note_job])) =
    (Raise JSONDecodeError, ex_world ConnNone None (ex_queue [encode_job ex_note_job])).
Proof.
  destruct (worker_undecodable_record
              (ex_world ConnNone None (ex_queue [lit "garbage"; encode_job ex_note_job]))
              (lit "garbage") [encode_job ex_note_job] JSONDecodeError) as [H1 H2];
    [vm_compute; reflexivity | vm_compute; reflexivity |].
  split; [rewrite H1 | rewrite H2]; vm_compute; reflexivity.
Defined.

(** C8 fails: the undecodable record is gone from the queue, but the
    decoding error ends the worker loop, so the valid job behind it is
    never processed. *)
Lemma worker_stops_on_undecodable_record :
  fst (worker 2 (ex_world ConnNone None (ex_queue [lit "garbage"; encode_job ex_note_job])))
    = Raise JSONDecodeError /\
  store (snd (worker 2 (ex_world ConnNone None (ex_queue [lit "garbage"; encode_job ex_note_job]))))
    !! default_queue_name = Some (RList [encode_job ex_note_job]) /\
  notes (snd (worker 2 (ex_world ConnNone None (ex_queue [lit "garbage"; encode_job ex_note_job]))))
    = [].
Proof. split; [|split]; vm_compute; reflexivity. Qed.

(** C9 on the job [{name: "w", content: "c"}] while session [7] is being
    served: nothing is sent. *)
Lemma process_job_never_notifies_witness :
  notes_get (notes (snd (process_job ex_note_job (ex_world ConnNone (Some 7%nat) ∅))))
    (PStr (lit "w")) = Some (PStr (lit "c")) /\
  sent (snd (process_job ex_note_job (ex_world ConnNone (Some 7%nat) ∅))) = [].
Proof.
  apply (process_job_never_notifies ex_note_job
           [(lit "name", PStr (lit "w")); (lit "content", PStr (lit "c"))] (lit "w") (lit "c") 7%nat
           (ex_world ConnNone (Some 7%nat) ∅));
    [reflexivity | reflexivity | vm_compute; reflexivity | vm_compute; reflexivity
    | reflexivity | reflexivity].
Defined.

(** C10 with a job on a queue named ["other"]: after three passes of the
    worker (two jobs of ["jobs"], then an idle pass) it is still there. *)
Lemma worker_ignores_other_queues_witness :
  lit "other" <> default_queue_name /\
  store (snd (worker 3 (ex_world ConnNone None
                          (<[lit "other" := RList [encode_job ex_note_job]]>
                             (ex_queue [encode_job ex_note_job; encode_job ex_other_job])))))
    !! lit "other" = Some (RList [encode_job ex_note_job]).
Proof.
  assert (Hne : lit "other" <> default_queue_name) by (intros H; vm_compute in H; discriminate H).
  split; [exact Hne|].
  apply (worker_ignores_other_queues (lit "other") [encode_job ex_note_job] 3 Hne).
  vm_compute. reflexivity.
Defined.

End Instances.

Section MoreInstances.
#[local] Existing Instance zero_float.

(** X1 with no arguments. *)
Lemma handle_call_tool_no_arguments_witness :
  handle_call_tool None (lit "add-note") None (ex_world ConnNone None ∅) =
    (Raise ValueError, ex_world ConnNone None ∅).
Proof. apply handle_call_tool_no_arguments. left. reflexivity. Defined.

(** X2 with the tool name [rename-note]. *)
Lemma handle_call_tool_unknown_tool_witness :
  handle_call_tool None (lit "rename-note") (Some ex_args_add) (ex_world ConnNone None ∅) =
    (Raise ValueError, ex_world ConnNone None ∅).
Proof.
  apply handle_call_tool_unknown_tool;
    [discriminate | intros H; vm_compute in H; discriminate H
    | intros H; vm_compute in H; discriminate H | intros H; vm_compute in H; discriminate H].
Defined.

(** X3 with [{name: "w", content: "c"}] inside a request of session [7]. *)
Lemma handle_call_tool_add_note_sets_witness :
  handle_call_tool None (lit "add-note") (Some ex_args_add) (ex_world ConnNone (Some 7%nat) ∅) =
    (Ok [Added (PStr (lit "w")) (PStr (lit "c"))],
     set_sent (set_notes (ex_world ConnNone (Some 7%nat) ∅)
                 (notes_set [] (PStr (lit "w")) (PStr (lit "c")))) [7%nat]) /\
  notes_get (notes_set [] (PStr (lit "w")) (PStr (lit "c"))) (PStr (lit "w")) = Some (PStr (lit "c")).
Proof.
  apply (handle_call_tool_add_note_sets None ex_args_add (lit "w") (PStr (lit "c")) 7%nat
           (ex_world ConnNone (Some 7%nat) ∅));
    [reflexivity | discriminate | reflexivity | reflexivity | reflexivity].
Defined.

(** X4 with [{name: "x"}] on [add-note-async]. *)
Lemma handle_call_tool_missing_field_witness :
  handle_call_tool (Some (mkQueue default_queue_name)) (lit "add-note-async")
    (Some [(lit "name", PStr (lit "x"))]) (ex_world ConnNone None ∅) =
    (Raise ValueError, ex_world ConnNone None ∅).
Proof.
  apply handle_call_tool_missing_field;
    [discriminate | right; split; [reflexivity | discriminate] | right; reflexivity].
Defined.

(** X5. *)
Lemma handle_call_tool_no_job_queue_witness :
  handle_call_tool None (lit "add-note-async") (Some ex_args_add) (ex_world ConnNone None ∅) =
    (Raise ValueError, ex_world ConnNone None ∅).
Proof. apply handle_call_tool_no_job_queue. discriminate. Defined.

(** X6 on a queue already holding one record. *)
Lemma handle_call_tool_add_note_async_enqueues_witness :
  handle_call_tool (Some (mkQueue default_queue_name)) (lit "add-note-async") (Some ex_args_add)
    (ex_world ConnNone None (ex_queue [lit "r"])) =
    (Ok [Queued (PStr (lit "w"))],
     set_store (ex_world ConnNone None (ex_queue [lit "r"]))
       (<[default_queue_name := RList ([lit "r"] ++
           [encode_job (add_note_job (PStr (lit "w")) (PStr (lit "c")))])]> (ex_queue [lit "r"]))) /\
  decode_job (encode_job (add_note_job (PStr (lit "w")) (PStr (lit "c")))) =
    Ok (add_note_job (PStr (lit "w")) (PStr (lit "c"))).
Proof.
  apply (handle_call_tool_add_note_async_enqueues (mkQueue default_queue_name) ex_args_add
           (PStr (lit "w")) (PStr (lit "c")) [lit "r"] (ex_world ConnNone None (ex_queue [lit "r"])));
    [exact zero_float_repr | reflexivity | reflexivity | reflexivity | reflexivity
    | vm_compute; reflexivity | vm_compute; reflexivity | left; vm_compute; reflexivity].
Defined.

(** X7 with a mirror connection. *)
Lemma add_note_async_then_worker_witness :
  notes (snd (handle_call_tool (Some (mkQueue default_queue_name)) (lit "add-note-async")
                (Some ex_args_add) (ex_world ConnSet None ∅))) = [] /\
  notes_get (notes (snd (worker_iter
    (snd (handle_call_tool (Some (mkQueue default_queue_name)) (lit "add-note-async")
            (Some ex_args_add) (ex_world ConnSet None ∅))))))
    (PStr (lit "w")) = Some (PStr (lit "c")).
Proof.
  apply (add_note_async_then_worker ex_args_add (lit "w") (lit "c") (ex_world ConnSet None ∅));
    [exact zero_float_repr | reflexivity | reflexivity | discriminate | discriminate
    | vm_compute; reflexivity | vm_compute; reflexivity | vm_compute; reflexivity].
Defined.

(** X8 with no notes. *)
Lemma handle_call_tool_delete_absent_witness :
  handle_call_tool None (lit "delete-note") (Some ex_args_del) (ex_world ConnNone (Some 7%nat) ∅) =
    (Raise ValueError, ex_world ConnNone (Some 7%nat) ∅).
Proof.
  apply (handle_call_tool_delete_absent None ex_args_del (lit "w"));
    [reflexivity | discriminate | reflexivity].
Defined.


(** X10 from a process with one other note. *)
Lemma add_then_delete_note_witness :
  (handle_call_tool None (lit "add-note") (Some ex_args_add) ≫= fun _ =>
     handle_call_tool None (lit "delete-note") (Some ex_args_del))
    (set_notes (ex_world ConnNone (Some 7%nat) ∅) [(PStr (lit "x"), PStr (lit "1"))]) =
  (Ok [Deleted (PStr (lit "w"))],
   set_sent (set_notes (ex_world ConnNone (Some 7%nat) ∅) [(PStr (lit "x"), PStr (lit "1"))])
     [7%nat; 7%nat]).
Proof.
  apply (add_then_delete_note None ex_args_add ex_args_del (lit "w") (PStr (lit "c")) 7%nat);
    [reflexivity | discriminate | reflexivity | reflexivity | reflexivity
    | vm_compute; reflexivity | reflexivity].
Defined.

(** X11 from a process with one other note. *)
Lemma list_resources_after_add_note_witness :
  fst (handle_list_resources (snd (handle_call_tool None (lit "add-note") (Some ex_args_add)
         (set_notes (ex_world ConnNone (Some 7%nat) ∅) [(PStr (lit "x"), PStr (lit "1"))])))) =
    Ok (match notes_get [(PStr (lit "x"), PStr (lit "1"))] (PStr (lit "w")) with
        | Some _ => map fst [(PStr (lit "x"), PStr (lit "1"))]
        | None => map fst [(PStr (lit "x"), PStr (lit "1"))] ++ [PStr (lit "w")]
        end).
Proof.
  apply (list_resources_after_add_note None ex_args_add (lit "w") (PStr (lit "c")) 7%nat
           (set_notes (ex_world ConnNone (Some 7%nat) ∅) [(PStr (lit "x"), PStr (lit "1"))]));
    [reflexivity | discriminate | reflexivity | reflexivity | reflexivity].
Defined.

(** X13 with the path [//w]. *)
Lemma read_resource_after_add_note_witness :
  fst (handle_read_resource (lit "note") (Some (lit "//w"))
         (snd (handle_call_tool None (lit "add-note") (Some ex_args_add)
                 (ex_world ConnNone (Some 7%nat) ∅)))) = Ok (PStr (lit "c")).
Proof.
  apply (read_resource_after_add_note None ex_args_add (lit "w") (PStr (lit "c")) 7%nat
           (ex_world ConnNone (Some 7%nat) ∅) (lit "//w"));
    [reflexivity | discriminate | reflexivity | reflexivity | reflexivity | reflexivity].
Defined.

(** X14 with the note [/x] and the path [//x]. *)
Lemma read_resource_slash_name_witness :
  handle_read_resource (lit "note") (Some (lit "//x"))
    (set_notes (ex_world ConnNone None ∅) [(PStr (47 :: lit "x"), PStr (lit "c"))]) =
  (Raise KeyError, set_notes (ex_world ConnNone None ∅) [(PStr (47 :: lit "x"), PStr (lit "c"))]).
Proof. apply (read_resource_slash_name (lit "x") (PStr (lit "c"))). reflexivity. Defined.

(** X15 with the prompt name [summarize]. *)
Lemma get_prompt_unknown_witness :
  handle_get_prompt (fun _ => lit "[]") (lit "summarize") None (ex_world ConnNone None ∅) =
    (Raise ValueError, ex_world ConnNone None ∅).
Proof. apply get_prompt_unknown. intros H. vm_compute in H. discriminate H. Defined.

(** X16 from a process with one other note, with the detailed style. *)
Lemma get_prompt_after_add_note_witness :
  exists pre,
    fst (handle_get_prompt (fun _ => lit "[]") (lit "summarize-notes")
           (Some [(lit "style", lit "detailed")])
           (snd (handle_call_tool None (lit "add-note") (Some ex_args_add)
                   (set_notes (ex_world ConnNone (Some 7%nat) ∅) [(PInt 5, PList [])])))) =
      Ok (pre ++ lit "- " ++ lit "w" ++ lit ": " ++ lit "c").
Proof.
  apply (get_prompt_after_add_note (fun _ => lit "[]") None ex_args_add (lit "w") (lit "c") 7%nat);
    [reflexivity | discriminate | reflexivity | discriminate | reflexivity | reflexivity].
Defined.

(** X17 with five passes. *)
Lemma worker_idle_witness :
  worker 5 (ex_world ConnSet (Some 7%nat) ∅) = (Ok tt, ex_world ConnSet (Some 7%nat) ∅).
Proof. apply worker_idle. reflexivity. Defined.

(** X18 with three jobs, two of them for the same name. *)
Lemma worker_applies_queued_notes_witness :
  worker (length ex_pairs)
    (set_store (ex_world ConnNone None ∅) (put_list ∅ default_queue_name
       (map (fun p => encode_job (add_note_job (PStr p.1) (PStr p.2))) ex_pairs))) =
  (Ok tt, set_notes (set_store (ex_world ConnNone None ∅) (put_list ∅ default_queue_name []))
            (fold_left (fun d p => notes_set d (PStr p.1) (PStr p.2)) ex_pairs [])).
Proof.
  apply (worker_applies_queued_notes ex_pairs (ex_world ConnNone None ∅));
    [exact zero_float_repr | repeat constructor | reflexivity | reflexivity].
Defined.

(** X19 with a list stored under [notes]. *)
Lemma process_job_mirror_wrongtype_witness :
  process_job ex_note_job (ex_world ConnSet None (<[lit "notes" := RList [lit "v"]]> ∅)) =
    (Raise ResponseError,
     set_notes (ex_world ConnSet None (<[lit "notes" := RList [lit "v"]]> ∅))
       (notes_set [] (PStr (lit "w")) (PStr (lit "c")))).
Proof.
  apply (process_job_mirror_wrongtype ex_note_job
           [(lit "name", PStr (lit "w")); (lit "content", PStr (lit "c"))] (lit "w") (lit "c") [lit "v"]);
    [reflexivity | reflexivity | reflexivity | reflexivity | reflexivity | reflexivity].
Defined.

(** X20 with a dict that has an extra key. *)
Lemma decode_job_dumps_witness :
  decode_job (dumps (PDict [(lit "type", PStr (lit "add-note")); (lit "data", PDict []);
                            (lit "id", PInt 1)])) = Raise TypeError.
Proof.
  rewrite (decode_job_dumps (PDict [(lit "type", PStr (lit "add-note")); (lit "data", PDict []);
                                    (lit "id", PInt 1)]) zero_float_repr);
    [reflexivity | vm_compute; reflexivity].
Defined.

(** X21 on a [RedisJobQueue] named [notes] holding the mirror hash. *)
Lemma queue_on_hash_key_witness :
  enqueue (mkQueue (lit "notes")) ex_note_job
    (ex_world ConnSet None (<[lit "notes" := RHash [(lit "w", lit "c")]]> ∅)) =
    (Raise ResponseError, ex_world ConnSet None (<[lit "notes" := RHash [(lit "w", lit "c")]]> ∅)) /\
  dequeue (mkQueue (lit "notes"))
    (ex_world ConnSet None (<[lit "notes" := RHash [(lit "w", lit "c")]]> ∅)) =
    (Raise ResponseError, ex_world ConnSet None (<[lit "notes" := RHash [(lit "w", lit "c")]]> ∅)).
Proof. apply (queue_on_hash_key _ _ [(lit "w", lit "c")]). reflexivity. Defined.

(** X22 on a job with a newline and a non-BMP character in a string. *)
Lemma dumps_printable_witness :
  forallb printable (dumps (asdict ex_other_job)) = true.
Proof. apply dumps_printable. intros []. reflexivity. Defined.

End MoreInstances.
